(** * recipes-convertor: the code-quality scripts

    A shallow embedding of [scripts/lib/command.py],
    [scripts/lib/project.py], [scripts/lib/audit] (auditors, formatters,
    discovery, orchestration) and the two task entry points
    [scripts/tasks/audit.py] and [scripts/tasks/format.py], followed by
    the properties of the orchestration framework.

    Conventions.
    - A Python [str] is a Rocq [string] holding its UTF-8 encoding; [bytes]
      are Rocq strings as well (one character per byte).
    - Everything the scripts reach outside the interpreter (pathlib, the
      process table, the Unicode character database beyond ASCII) is a
      field of the [Runtime] record; definitions are stated for any runtime
      and evaluated on the simulated host of module [Sim].
    - Python exceptions are values of [exn]; code that may raise lives in
      the monad [M], state passing with an early exit.
    - The shape of the file tree (what exists, what is a file, what is a
      directory) is fixed for the length of a run; what changes from one
      process to the next is in the [World].
    - Of the log sink the state keeps the warning records, those of the
      orchestration and that of the project-root search, which returns
      all it logs next to its result. A logging call that
      passes keyword arguments has its message formatted with them by the
      logger, which can raise: those calls are steps of the monad. The
      calls that pass a message alone never format and never raise; their
      records are not kept. *)

From Stdlib Require Import ZArith NArith List String Ascii Bool Lia.
From stdpp Require Import base option list gmap strings pretty.

Open Scope Z_scope.

(* ================================================================== *)
(** * Python strings and bytes *)
(* ================================================================== *)

Module PyStr.

Definition bytes_of (s : string) : list N :=
  map N_of_ascii (list_ascii_of_string s).

Definition of_bytes (bs : list N) : string :=
  string_of_list_ascii (map ascii_of_N bs).

Definition is_cont (b : N) : bool := ((128 <=? b) && (b <=? 191))%N.

(** Strict UTF-8, as [bytes.decode("utf-8")]: shortest form only, no
    surrogates, nothing above U+10FFFF. *)
Fixpoint utf8_decode (bs : list N) : option (list N) :=
  match bs with
  | [] => Some []
  | b0 :: r0 =>
    if (b0 <? 128)%N then cons b0 <$> utf8_decode r0
    else if ((194 <=? b0) && (b0 <=? 223))%N then
      match r0 with
      | b1 :: r1 =>
        if is_cont b1
        then cons ((b0 - 192) * 64 + (b1 - 128))%N <$> utf8_decode r1
        else None
      | _ => None
      end
    else if ((224 <=? b0) && (b0 <=? 239))%N then
      match r0 with
      | b1 :: b2 :: r2 =>
        if ((if b0 =? 224 then 160 else 128) <=? b1)%N
           && (b1 <=? (if b0 =? 237 then 159 else 191))%N
           && is_cont b2
        then cons ((b0 - 224) * 4096 + (b1 - 128) * 64 + (b2 - 128))%N
               <$> utf8_decode r2
        else None
      | _ => None
      end
    else if ((240 <=? b0) && (b0 <=? 244))%N then
      match r0 with
      | b1 :: b2 :: b3 :: r3 =>
        if ((if b0 =? 240 then 144 else 128) <=? b1)%N
           && (b1 <=? (if b0 =? 244 then 143 else 191))%N
           && is_cont b2 && is_cont b3
        then cons ((b0 - 240) * 262144 + (b1 - 128) * 4096
                   + (b2 - 128) * 64 + (b3 - 128))%N
               <$> utf8_decode r3
        else None
      | _ => None
      end
    else None
  end.

Definition utf8_encode1 (c : N) : list N :=
  if (c <? 128)%N then [c]
  else if (c <? 2048)%N then [192 + c / 64; 128 + c mod 64]%N
  else if (c <? 65536)%N then
    [224 + c / 4096; 128 + (c / 64) mod 64; 128 + c mod 64]%N
  else [240 + c / 262144; 128 + (c / 4096) mod 64;
        128 + (c / 64) mod 64; 128 + c mod 64]%N.

Definition utf8_encode (cs : list N) : list N := flat_map utf8_encode1 cs.

(** The code points of a [str]. *)
Definition codepoints (s : string) : list N :=
  default [] (utf8_decode (bytes_of s)).

Definition of_codepoints (cs : list N) : string := of_bytes (utf8_encode cs).

(** [" ".join(tokens)] *)
Fixpoint join (sep : string) (l : list string) : string :=
  match l with
  | [] => ""
  | [x] => x
  | x :: r => x +:+ sep +:+ join sep r
  end.

(** [s.split(" ")]: every single space separates, empty fields are kept. *)
Fixpoint split_go (cur : string) (s : string) : list string :=
  match s with
  | EmptyString => [cur]
  | String c r =>
    if Ascii.eqb c " "%char then cur :: split_go "" r
    else split_go (cur +:+ String c EmptyString) r
  end.

Definition split_space (s : string) : list string := split_go "" s.

(** [needle in hay] *)
Fixpoint contains (needle hay : string) : bool :=
  String.prefix needle hay ||
  match hay with
  | EmptyString => false
  | String _ r => contains needle r
  end.

(** The Unicode character database outside ASCII, as CPython's [str]
    predicates consult it. *)
Record UnicodeData := {
  ud_isalpha : N -> bool;
  ud_isdecimal : N -> bool;
  ud_isdigit : N -> bool;
  ud_isnumeric : N -> bool;
  ud_isupper : N -> bool;
  ud_istitle : N -> bool;
  ud_islower : N -> bool;
  ud_lower : N -> list N;
  ud_isprintable : N -> bool
}.

Section Predicates.
Context (U : UnicodeData).

Definition ascii_upper (c : N) : bool := ((65 <=? c) && (c <=? 90))%N.
Definition ascii_lower (c : N) : bool := ((97 <=? c) && (c <=? 122))%N.
Definition ascii_digit (c : N) : bool := ((48 <=? c) && (c <=? 57))%N.

Definition cp_isalpha (c : N) : bool :=
  if (c <? 128)%N then ascii_upper c || ascii_lower c else ud_isalpha U c.
Definition cp_isdecimal (c : N) : bool :=
  if (c <? 128)%N then ascii_digit c else ud_isdecimal U c.
Definition cp_isdigit (c : N) : bool :=
  if (c <? 128)%N then ascii_digit c else ud_isdigit U c.
Definition cp_isnumeric (c : N) : bool :=
  if (c <? 128)%N then ascii_digit c else ud_isnumeric U c.
Definition cp_isupper (c : N) : bool :=
  if (c <? 128)%N then ascii_upper c else ud_isupper U c.
Definition cp_istitle (c : N) : bool :=
  if (c <? 128)%N then false else ud_istitle U c.
Definition cp_islower (c : N) : bool :=
  if (c <? 128)%N then ascii_lower c else ud_islower U c.
Definition cp_lower (c : N) : list N :=
  if (c <? 128)%N then [if ascii_upper c then (c + 32)%N else c]
  else ud_lower U c.

Definition cp_isalnum (c : N) : bool :=
  cp_isalpha c || cp_isdecimal c || cp_isdigit c || cp_isnumeric c.

(** [s.isalnum()]: at least one character, all of them alphanumeric. *)
Definition isalnum (s : string) : bool :=
  match codepoints s with
  | [] => false
  | cs => forallb cp_isalnum cs
  end.

(** [s.islower()]: no uppercase or titlecase character, and at least one
    lowercase one. *)
Definition islower (s : string) : bool :=
  let cs := codepoints s in
  negb (existsb (fun c => cp_isupper c || cp_istitle c) cs)
  && existsb cp_islower cs.

(** [s.lower()] *)
Definition lower (s : string) : string :=
  of_codepoints (flat_map cp_lower (codepoints s)).

(** A hexadecimal digit, in lower case, and the last [width] of them of a
    number. *)
Definition hex_digit (n : N) : N :=
  if (n <? 10)%N then (48 + n)%N else (87 + n)%N.

Fixpoint hex_fixed (width : nat) (n : N) : list N :=
  match width with
  | O => []
  | S w => hex_fixed w (n / 16)%N ++ [hex_digit (n mod 16)%N]
  end.

(** One character of [repr(s)], between quotes [quote]: the quote and the
    backslash are escaped, so are tab, newline and carriage return, and
    what is not printable is written [\xhh], [\uhhhh] or [\Uhhhhhhhh]. *)
Definition cp_repr (quote c : N) : list N :=
  if ((c =? quote) || (c =? 92))%N then [92; c]%N
  else if (c =? 9)%N then [92; 116]%N
  else if (c =? 10)%N then [92; 110]%N
  else if (c =? 13)%N then [92; 114]%N
  else if ((c <? 32) || (c =? 127))%N then (92 :: 120 :: hex_fixed 2 c)%N
  else if (c <? 127)%N then [c]
  else if ud_isprintable U c then [c]
  else if (c <? 256)%N then (92 :: 120 :: hex_fixed 2 c)%N
  else if (c <? 65536)%N then (92 :: 117 :: hex_fixed 4 c)%N
  else (92 :: 85 :: hex_fixed 8 c)%N.

(** [repr(s)]: single quotes, unless [s] has a single quote and no double
    quote in it. *)
Definition repr (s : string) : string :=
  let cs := codepoints s in
  let quote :=
    if existsb (N.eqb 39) cs && negb (existsb (N.eqb 34) cs)
    then 34%N else 39%N in
  of_codepoints (quote :: flat_map (cp_repr quote) cs ++ [quote]).

(** [str(l)] of a list of [str]. *)
Definition str_of_list (l : list string) : string :=
  "[" +:+ join ", " (map repr l) +:+ "]".
End Predicates.

(** The names the discovery messages describe: one or more characters, each
    of [a-z] or [0-9]. *)
Definition lower_ascii_alnum (s : string) : bool :=
  match bytes_of s with
  | [] => false
  | bs => forallb (fun c => ascii_lower c || ascii_digit c) bs
  end.

End PyStr.

(* ================================================================== *)
(** * Exceptions, the runtime and the monad of the scripts *)
(* ================================================================== *)

Definition Path := string.

(** A command as handed to [subprocess.run]: an argument vector or one
    shell string. *)
Inductive CmdLine :=
| Argv (tokens : list string)
| ShellLine (line : string).

Inductive OSErrno := ENOENT | EACCES | EOTHER.

Inductive exn :=
| AuditorError (given_message : string) (exit_code : option Z)
| FormatterError (given_message : string) (exit_code : option Z)
| CalledProcessError (returncode : Z) (cmd : CmdLine)
| OSError (errno : OSErrno)
| UnicodeDecodeError
| TypeError (message : string)
| KeyError (key : string)
| IndexError
| ValueError
| AttributeError (attribute : string)
| ProjectRootNotFoundError
| ClickException (message : string).

Inductive Res (A : Type) :=
| Ok (a : A)
| Raise (e : exn).
Arguments Ok {A} a.
Arguments Raise {A} e.

(** The levels of the records the scripts log. *)
Inductive Level := DEBUG | INFO | WARNING | ERROR.

(** A keyword argument of a logging call. *)
Inductive LogValue :=
| LStr (s : string)
| LList (l : list string)
| LBool (b : bool).

(** ** scripts/lib/project.py *)
Module Project.

(** A directory, as the list of its components from the innermost one up
    to the one below the root. The root is the empty list, and the parent
    of the root is the root. *)
Definition Dir : Type := list string.

Definition parent (d : Dir) : Dir := tail d.

(** What [Repo(Path.cwd(), search_parent_directories=True)] comes to: a
    repository, with or without a working tree, or
    [InvalidGitRepositoryError]. *)
Inductive RepoLookup :=
| Found (working_tree_dir : option Dir)
| Invalid.

(** The loop [while current_dir != current_dir.parent], looking for
    [pyproject.toml] in [current_dir]. *)
Fixpoint search (has_pyproject : Dir -> bool) (current_dir : Dir)
  : option Dir :=
  match current_dir with
  | [] => None
  | _ :: up =>
    if has_pyproject current_dir then Some current_dir
    else search has_pyproject up
  end.

(** [get_project_root], with what it logs. *)
Definition get_project_root (repo : RepoLookup) (has_pyproject : Dir -> bool)
    (cwd : Dir) : Res Dir * list (Level * string) :=
  match repo with
  | Found (Some working_tree_dir) => (Ok working_tree_dir, [])
  | _ =>
    let warning :=
      (WARNING, "No git repository found, searching for pyproject.toml") in
    match search has_pyproject cwd with
    | Some current_dir => (Ok current_dir, [warning])
    | None =>
      (Raise ProjectRootNotFoundError,
       [warning; (ERROR, "No git repository or pyproject.toml found")])
    end
  end.

End Project.

(** What starting a child process can come to: the operating system
    refuses to start it, or it runs and exits with a status and two
    output streams. *)
Inductive SpawnOutcome :=
| SpawnFailed (errno : OSErrno)
| Exited (status : Z) (out err : string).

Record Runtime := {
  World : Type;
  (* pathlib *)
  path_of_str : string -> Path;
  path_suffix : Path -> string;
  path_absolute : Path -> string;
  path_exists : Path -> bool;
  path_is_file : Path -> bool;
  path_is_dir : Path -> bool;
  (* the absolute path with the given components, innermost first, and
     the components of Path.cwd() *)
  path_of_parts : Project.Dir -> Path;
  path_cwd : Project.Dir;
  (* git.Repo(Path.cwd(), search_parent_directories=True) *)
  git_repo : Project.RepoLookup;
  (* fork and exec of an argument vector *)
  os_spawn : list string -> World -> SpawnOutcome * World;
  (* open(path, "w") *)
  open_w : string -> World -> option exn * World;
  (* loguru, called at a level with a message and keyword arguments. A
     record below the level of the sink (LOGGING_LEVEL) is dropped at once;
     any other is formatted, str.format of the message with the keyword
     arguments, and what that raises leaves the call *)
  logger_format : Level -> string -> list (string * LogValue) -> option exn;
  unicode : PyStr.UnicodeData
}.

(** [CommandResult.combined_output] *)
Record CombinedOutput := {
  co_stdout : option string;
  co_stderr : option string
}.

Inductive PathType := FILE | DIRECTORY.

Definition PathType_value (t : PathType) : string :=
  match t with FILE => "file" | DIRECTORY => "directory" end.

(** [FileAuditResult] and [FileFormatResult]; [formatted] is the extra
    field of the latter and stays [None] in audit results. *)
Record FileResult := {
  path : Path;
  path_type : PathType;
  valid : bool;
  tool : string;
  formatted : option bool;
  output : option CombinedOutput
}.

(** The flat record [serialize] returns; audit results have no
    ["formatted"] key. *)
Record Serialized := {
  s_path : string;
  s_path_type : string;
  s_valid : bool;
  s_formatted : option (option bool);
  s_output : option CombinedOutput
}.

(** The mapping a run builds: absolute path, then plugin name. *)
Abbreviation Report := (gmap string (gmap string Serialized)).

(** What is left of a run of [main]: the way it ended, and the report dumped
    to the output file, if the run came to that. *)
Record MainOutcome := {
  status : Res unit;
  report_file : option (string * Report)
}.

Section Scripts.
Context {R : Runtime}.

(** The state threaded through a run: the outside world, the argument
    vectors handed to the operating system so far, and the warning
    records. *)
Record State := {
  world : World R;
  spawned : list (list string);
  warnings : list string
}.

Definition M (A : Type) : Type := State -> Res A * State.

Definition ret {A} (a : A) : M A := fun st => (Ok a, st).
Definition raise {A} (e : exn) : M A := fun st => (Raise e, st).
Definition bind {A B} (m : M A) (k : A -> M B) : M B :=
  fun st =>
    match m st with
    | (Ok a, st') => k a st'
    | (Raise e, st') => (Raise e, st')
    end.

Notation "x <- m ;; k" := (bind m (fun x => k))
  (at level 100, m at level 99, k at level 100, right associativity).

Definition set_world (w : World R) (st : State) : State :=
  {| world := w; spawned := spawned st; warnings := warnings st |}.

Definition logger_warning (msg : string) : M unit :=
  fun st => (Ok tt, {| world := world st; spawned := spawned st;
                       warnings := warnings st ++ [msg] |}).

(** [logger.debug] and [logger.info], called with a message and keyword
    arguments: loguru formats the message with them, and the exception of
    that leaves the call. (A call without keyword arguments formats
    nothing and cannot raise.) *)
Definition logger_with (level : Level) (message : string)
    (kwargs : list (string * LogValue)) : M unit :=
  fun st =>
    match logger_format R level message kwargs with
    | Some e => (Raise e, st)
    | None => (Ok tt, st)
    end.

(* ------------------------------------------------------------------ *)
(** ** subprocess.run *)

Record CompletedProcess := {
  cp_args : CmdLine;
  cp_returncode : Z;
  cp_stdout : option string;
  cp_stderr : option string
}.

(** The argument vector [Popen] executes on POSIX: with [shell=True] the
    command is handed to [/bin/sh -c]. *)
Definition popen_argv (args : CmdLine) (shell : bool) : list string :=
  match args, shell with
  | ShellLine s, true => ["/bin/sh"; "-c"; s]
  | Argv l, true => "/bin/sh" :: "-c" :: l
  | Argv l, false => l
  | ShellLine s, false => [s]
  end.

Definition subprocess_run (args : CmdLine) (shell check capture_output : bool)
  : M CompletedProcess :=
  fun st =>
    let argv := popen_argv args shell in
    let st0 := {| world := world st; spawned := spawned st ++ [argv];
                  warnings := warnings st |} in
    match os_spawn R argv (world st) with
    | (SpawnFailed e, w) => (Raise (OSError e), set_world w st0)
    | (Exited rc out err, w) =>
      if check && negb (rc =? 0)
      then (Raise (CalledProcessError rc args), set_world w st0)
      else (Ok {| cp_args := args; cp_returncode := rc;
                  cp_stdout := if capture_output then Some out else None;
                  cp_stderr := if capture_output then Some err else None |},
            set_world w st0)
    end.

(* ------------------------------------------------------------------ *)
(** ** scripts/lib/command.py *)

Record CommandResult := {
  original_command : list string;
  constructed_command : CmdLine;
  command_prefix : option (list string);
  command_suffix : option (list string);
  executed_command : CmdLine;
  used_shell : bool;
  captured_output : bool;
  returncode : option Z;
  error : option string;
  stdout : option string;
  stderr : option string
}.

Definition combined_output (r : CommandResult) : CombinedOutput :=
  {| co_stdout := stdout r; co_stderr := stderr r |}.

(** [b.decode("utf-8") if b else None] *)
Definition decode_stream (b : option string) : Res (option string) :=
  match b with
  | None => Ok None
  | Some EmptyString => Ok None
  | Some s =>
    match PyStr.utf8_decode (PyStr.bytes_of s) with
    | Some _ => Ok (Some s)
    | None => Raise UnicodeDecodeError
    end
  end.

(** The dictionary [_execute] returns and [run] splats into
    [from_subprocess_result]. *)
Record Execution := {
  ex_result : CompletedProcess;
  ex_original_command : list string;
  ex_constructed_command : CmdLine;
  ex_command_prefix : option (list string);
  ex_command_suffix : option (list string);
  ex_used_shell : bool;
  ex_captured_output : bool
}.

Definition from_subprocess_result (e : Execution) : M CommandResult :=
  fun st =>
    match decode_stream (cp_stdout (ex_result e)) with
    | Raise x => (Raise x, st)
    | Ok out =>
      match decode_stream (cp_stderr (ex_result e)) with
      | Raise x => (Raise x, st)
      | Ok err =>
        (Ok {| original_command := ex_original_command e;
               constructed_command := ex_constructed_command e;
               command_prefix := ex_command_prefix e;
               command_suffix := ex_command_suffix e;
               executed_command := cp_args (ex_result e);
               used_shell := ex_used_shell e;
               captured_output := ex_captured_output e;
               returncode := Some (cp_returncode (ex_result e));
               error := None;
               stdout := out;
               stderr := err |}, st)
      end
    end.

Inductive CommandArg :=
| CmdList (tokens : list string)
| CmdStr (s : string).

(** [Command(command)]: the object is its token list. *)
Definition Command (command : CommandArg) : list string :=
  match command with
  | CmdList l => l
  | CmdStr s => PyStr.split_space s
  end.

Definition or_empty (o : option (list string)) : list string := default [] o.

(** [[*(command_prefix or []), *self.command, *(command_suffix or [])]],
    joined with single spaces when a shell is used. *)
Definition construct_command (self : list string) (use_shell : bool)
    (command_prefix command_suffix : option (list string)) : CmdLine :=
  let tokens := or_empty command_prefix ++ self ++ or_empty command_suffix in
  if use_shell then ShellLine (PyStr.join " " tokens) else Argv tokens.

(** [f"{constructed_command}"] and the value of the keyword [cmd]. *)
Definition str_of_command (constructed : CmdLine) : string :=
  match constructed with
  | ShellLine line => line
  | Argv tokens => PyStr.str_of_list (unicode R) tokens
  end.

Definition value_of_command (constructed : CmdLine) : LogValue :=
  match constructed with
  | ShellLine line => LStr line
  | Argv tokens => LList tokens
  end.

(** The [logger.debug] call that opens the [try] block of [_execute]. *)
Definition log_running (constructed : CmdLine)
    (check capture_output use_shell : bool) : M unit :=
  logger_with DEBUG ("Running command: " +:+ str_of_command constructed)
    [("cmd", value_of_command constructed);
     ("using_shell", LBool use_shell);
     ("capturing_output", LBool capture_output);
     ("throw_error_on_non_zero_return_code", LBool check)].

Definition Command_execute (self : list string)
    (check capture_output use_shell : bool)
    (command_prefix command_suffix : option (list string)) : M Execution :=
  let constructed := construct_command self use_shell command_prefix command_suffix in
  logged <- log_running constructed check capture_output use_shell ;;
  result <- subprocess_run constructed use_shell check capture_output ;;
  ret {| ex_result := result;
         ex_original_command := self;
         ex_constructed_command := constructed;
         ex_command_prefix := command_prefix;
         ex_command_suffix := command_suffix;
         ex_used_shell := use_shell;
         ex_captured_output := capture_output |}.

(** [run], called with the keywords it knows and nothing else, as it is
    everywhere in the scripts: the branch for unknown arguments, a warning
    ahead of the same run, is not taken. *)
Definition Command_run (self : list string)
    (check capture_output use_shell : bool)
    (command_prefix command_suffix : option (list string)) : M CommandResult :=
  execution_result <- Command_execute self check capture_output use_shell
                        command_prefix command_suffix ;;
  from_subprocess_result execution_result.

(* ------------------------------------------------------------------ *)
(** ** scripts/lib/audit: results, errors and the capability contract *)

(** [AuditorError(given_message, exit_code)]: a truthy exit code is put in
    front of the message. *)
Definition error_message (given_message : string) (exit_code : option Z)
  : string :=
  match exit_code with
  | Some c =>
    if c =? 0 then given_message
    else "[Exit Code: " +:+ pretty c +:+ "] " +:+ given_message
  | None => given_message
  end.

Definition AuditorError_new (given_message : string) (exit_code : option Z)
  : exn := AuditorError (error_message given_message exit_code) exit_code.

Definition FormatterError_new (given_message : string) (exit_code : option Z)
  : exn := FormatterError (error_message given_message exit_code) exit_code.

(** The constructors classify the path when the result is created. Their
    argument checks cannot fire on the calls below (a [Path], a class, a
    [bool]). *)
Definition FileAuditResult (file_path : Path) (auditor : string)
    (valid : bool) (output : option CombinedOutput) : FileResult :=
  {| path := file_path;
     path_type := if path_is_file R file_path then FILE else DIRECTORY;
     valid := valid; tool := auditor; formatted := None;
     output := output |}.

Definition FileFormatResult (file_path : Path) (formatter : string)
    (valid : bool) (formatted : option bool)
    (output : option CombinedOutput) : FileResult :=
  {| path := file_path;
     path_type := if path_is_file R file_path then FILE else DIRECTORY;
     valid := valid; tool := formatter; formatted := formatted;
     output := output |}.

Definition FileAuditResult_serialize (r : FileResult) : Serialized :=
  {| s_path := path r; s_path_type := PathType_value (path_type r);
     s_valid := valid r; s_formatted := None; s_output := output r |}.

Definition FileFormatResult_serialize (r : FileResult) : Serialized :=
  {| s_path := path r; s_path_type := PathType_value (path_type r);
     s_valid := valid r; s_formatted := Some (formatted r);
     s_output := output r |}.

Definition Verb : Type :=
  Path -> option (list string) -> option (list string) -> M FileResult.

(** A subclass of [Auditor]: its [__name__], its [name] attribute when it
    defines one, and its class methods. *)
Record Auditor := {
  auditor_class : string;
  auditor_name : option string;
  auditor_is_supported_filetype : Path -> bool;
  auditor_audit : Verb
}.

Record Formatter := {
  formatter_class : string;
  formatter_name : option string;
  formatter_is_supported_filetype : Path -> bool;
  formatter_check : Verb;
  formatter_format : Verb
}.

Inductive AuditorOperation := AUDIT.
Inductive FormatterOperation := CHECK | FORMAT.

(** [getattr(cls, operation.value)]; every operation names a method of the
    base class, so the lookup cannot fail. *)
Definition auditor_method (cls : Auditor) (operation : AuditorOperation)
  : Verb := match operation with AUDIT => auditor_audit cls end.

Definition formatter_method (cls : Formatter) (operation : FormatterOperation)
  : Verb :=
  match operation with
  | CHECK => formatter_check cls
  | FORMAT => formatter_format cls
  end.

(* ------------------------------------------------------------------ *)
(** ** The two plugins *)

(** [is_supported_filetype] of both plugins (always called on a [Path]). *)
Definition py_is_supported_filetype (file_path : Path) : bool :=
  if path_is_dir R file_path then true
  else PyStr.contains "py" (PyStr.lower (unicode R) (path_suffix R file_path)).

Definition pretty_returncode (rc : option Z) : string :=
  match rc with Some c => pretty c | None => "None" end.

Definition FlakeEightAuditor_audit : Verb :=
  fun file_path command_prefix command_suffix =>
    result <- Command_run (Command (CmdList ["flake8"])) false true true
                command_prefix (Some (file_path :: or_empty command_suffix)) ;;
    match returncode result with
    | Some 0 =>
      ret (FileAuditResult file_path "FlakeEightAuditor" true
             (Some (combined_output result)))
    | Some 1 =>
      ret (FileAuditResult file_path "FlakeEightAuditor" false
             (Some (combined_output result)))
    | rc =>
      raise (AuditorError_new ("Unknown error: " +:+ pretty_returncode rc) rc)
    end.

Definition FlakeEightAuditor : Auditor :=
  {| auditor_class := "FlakeEightAuditor";
     auditor_name := Some "flake8";
     auditor_is_supported_filetype := py_is_supported_filetype;
     auditor_audit := FlakeEightAuditor_audit |}.

Definition BlackFormatter_check : Verb :=
  fun file_path command_prefix command_suffix =>
    result <- Command_run (Command (CmdList ["black"; "--check"])) false true true
                command_prefix (Some (file_path :: or_empty command_suffix)) ;;
    match returncode result with
    | Some 0 =>
      ret (FileFormatResult file_path "BlackFormatter" true None
             (Some (combined_output result)))
    | Some 1 =>
      ret (FileFormatResult file_path "BlackFormatter" false None
             (Some (combined_output result)))
    | rc =>
      raise (FormatterError_new ("Unknown error: " +:+ pretty_returncode rc) rc)
    end.

Definition BlackFormatter_format : Verb :=
  fun file_path command_prefix command_suffix =>
    check_result <- BlackFormatter_check file_path command_prefix command_suffix ;;
    let needs_changes := negb (valid check_result) in
    if needs_changes then
      result <- Command_run (Command (CmdList ["black"])) false true true
                  command_prefix (Some (file_path :: or_empty command_suffix)) ;;
      if negb (bool_decide (returncode result = Some 0))
      then raise (FormatterError_new ("Failed to format file: " +:+ file_path)
                    (returncode result))
      else ret (FileFormatResult file_path "BlackFormatter" true
                  (Some needs_changes) (Some (combined_output result)))
    else ret (FileFormatResult file_path "BlackFormatter" true
                (Some needs_changes) None).

Definition BlackFormatter : Formatter :=
  {| formatter_class := "BlackFormatter";
     formatter_name := Some "black";
     formatter_is_supported_filetype := py_is_supported_filetype;
     formatter_check := BlackFormatter_check;
     formatter_format := BlackFormatter_format |}.

(* ------------------------------------------------------------------ *)
(** ** The orchestrator: [perform_auditor_operation] and
       [perform_formatter_operation] *)

(** An element of the [file_paths] argument: a [str], a [Path], another
    object [Path()] takes (a [PurePath], an [os.PathLike]) with the path it
    gives, or a value [Path()] refuses. *)
Inductive PathLike :=
| PyStrArg (s : string)
| PyPathArg (p : Path)
| PyPathLikeArg (p : Path)
| PyOtherArg.

Inductive FilePaths :=
| Single (x : PathLike)
| Several (l : list PathLike).

(** [Path(x)] *)
Definition Path_new (x : PathLike) : Res Path :=
  match x with
  | PyStrArg s => Ok (path_of_str R s)
  | PyPathArg p => Ok p
  | PyPathLikeArg p => Ok p
  | PyOtherArg => Raise (TypeError "expected str, bytes or os.PathLike object")
  end.

(** The list comprehension keeps the elements that pass
    [isinstance(file_path, (Path, str))], and no other. *)
Fixpoint resolve_list (l : list PathLike) : list Path :=
  match l with
  | [] => []
  | PyStrArg s :: r => path_of_str R s :: resolve_list r
  | PyPathArg p :: r => p :: resolve_list r
  | PyPathLikeArg _ :: r => resolve_list r
  | PyOtherArg :: r => resolve_list r
  end.

Definition resolve_file_paths (file_paths : FilePaths) : Res (list Path) :=
  match file_paths with
  | Single x =>
    match Path_new x with Ok p => Ok [p] | Raise e => Raise e end
  | Several l => Ok (resolve_list l)
  end.

(** What a consumer that exhausts the generator sees: the results yielded,
    in order, and the exception that ended the iteration, if any. *)
Definition Stream : Type := list FileResult * option exn.

Definition yield_first (r : FileResult) (s : Stream * State) : Stream * State :=
  ((r :: fst (fst s), snd (fst s)), snd s).

Section Perform.
Context (new_error : string -> option Z -> exn)
        (is_supported_filetype : Path -> bool)
        (operation_method : Verb)
        (command_prefix command_suffix : option (list string)).

(** The [for file_path in resolved_file_paths] loop. *)
Fixpoint perform_loop (resolved_file_paths : list Path) (st : State)
  : Stream * State :=
  match resolved_file_paths with
  | [] => (([], None), st)
  | file_path :: rest =>
    if negb (path_exists R file_path) then
      (([], Some (new_error ("File does not exist: " +:+ file_path) None)), st)
    else if negb (is_supported_filetype file_path) then
      perform_loop rest
        (snd (logger_warning
                ("File is not a supported filetype: " +:+ file_path) st))
    else
      match operation_method file_path command_prefix command_suffix st with
      | (Ok result, st1) => yield_first result (perform_loop rest st1)
      | (Raise e, st1) => (([], Some e), st1)
      end
  end.

Definition perform_operation (file_paths : FilePaths) (st : State)
  : Stream * State :=
  match resolve_file_paths file_paths with
  | Raise e => (([], Some e), st)
  | Ok resolved_file_paths => perform_loop resolved_file_paths st
  end.
End Perform.

Definition perform_auditor_operation (cls : Auditor)
    (operation : AuditorOperation) (file_paths : FilePaths)
    (command_prefix command_suffix : option (list string))
  : State -> Stream * State :=
  perform_operation AuditorError_new (auditor_is_supported_filetype cls)
    (auditor_method cls operation) command_prefix command_suffix file_paths.

Definition perform_formatter_operation (cls : Formatter)
    (operation : FormatterOperation) (file_paths : FilePaths)
    (command_prefix command_suffix : option (list string))
  : State -> Stream * State :=
  perform_operation FormatterError_new (formatter_is_supported_filetype cls)
    (formatter_method cls operation) command_prefix command_suffix file_paths.

(* ------------------------------------------------------------------ *)
(** ** Discovery: [_discover_auditors] and [_discover_formatters] *)

(** A [dict] with [str] keys, in insertion order. *)
Definition dict (V : Type) : Type := list (string * V).

Fixpoint dict_set {V} (k : string) (v : V) (d : dict V) : dict V :=
  match d with
  | [] => [(k, v)]
  | (k', v') :: r =>
    if String.eqb k k' then (k, v) :: r else (k', v') :: dict_set k v r
  end.

Fixpoint dict_get {V} (k : string) (d : dict V) : option V :=
  match d with
  | [] => None
  | (k', v) :: r => if String.eqb k k' then Some v else dict_get k r
  end.

Definition dict_keys {V} (d : dict V) : list string := map fst d.
Definition dict_values {V} (d : dict V) : list V := map snd d.

Section Discover.
Context {T : Type}
        (new_error : string -> option Z -> exn)
        (kind : string)
        (class_of : T -> string)
        (name_of : T -> option string).

(** The checks run on one class found in the package, then its
    registration. *)
Definition register (item : T) (found : dict T) : Res (dict T) :=
  match name_of item with
  | None =>
    Raise (new_error (kind +:+ " class " +:+ class_of item
                      +:+ " must define a 'name' class attribute") None)
  | Some name =>
    if String.eqb (PyStr.lower (unicode R) name) "all" then
      Raise (new_error (kind +:+ " class " +:+ class_of item
                        +:+ " cannot use 'all' as its name - "
                        +:+ "this is a reserved keyword") None)
    else if negb (PyStr.isalnum (unicode R) name)
            || negb (PyStr.islower (unicode R) name) then
      Raise (new_error (kind +:+ " class " +:+ class_of item
                        +:+ " must have a name that contains only "
                        +:+ "lowercase letters (a-z) and numbers (0-9)") None)
    else Ok (dict_set name item found)
  end.

(** [items]: the subclasses met while the modules of the package are
    scanned, in the order of the scan. *)
Fixpoint discover_from (items : list T) (found : dict T) : Res (dict T) :=
  match items with
  | [] => Ok found
  | item :: rest =>
    match register item found with
    | Ok found' => discover_from rest found'
    | Raise e => Raise e
    end
  end.

Definition discover (items : list T) : Res (dict T) := discover_from items [].
End Discover.

Definition _discover_auditors (items : list Auditor) : Res (dict Auditor) :=
  discover AuditorError_new "Auditor" auditor_class auditor_name items.

Definition _discover_formatters (items : list Formatter) : Res (dict Formatter) :=
  discover FormatterError_new "Formatter" formatter_class formatter_name items.

(** The packages of this repository hold one module each. *)
Definition AVAILABLE_AUDITORS : Res (dict Auditor) :=
  _discover_auditors [FlakeEightAuditor].

Definition AVAILABLE_FORMATTERS : Res (dict Formatter) :=
  _discover_formatters [BlackFormatter].

(* ------------------------------------------------------------------ *)
(** ** scripts/lib/project.py, on the file tree of the run *)

(** What [get_project_root] returns or raises, and what it logs. *)
Definition project_root : Res Path * list (Level * string) :=
  let found :=
    Project.get_project_root (git_repo R)
      (fun current_dir =>
         path_exists R (path_of_parts R ("pyproject.toml" :: current_dir)))
      (path_cwd R) in
  (match fst found with
   | Ok root => Ok (path_of_parts R root)
   | Raise e => Raise e
   end, snd found).

(** The warning records among those logged. *)
Definition warning_records (logged : list (Level * string)) : list string :=
  flat_map (fun record =>
              match fst record with
              | WARNING => [snd record]
              | _ => []
              end) logged.

(** [get_project_root()] in a run: the warning of the search joins the
    warnings of the run. The error record of a search that fails goes the
    way of every other error record: the state does not keep it. *)
Definition get_project_root : M Path :=
  fun st =>
    (fst project_root,
     {| world := world st; spawned := spawned st;
        warnings := warnings st ++ warning_records (snd project_root) |}).

(* ------------------------------------------------------------------ *)
(** ** scripts/tasks/audit.py and scripts/tasks/format.py *)

(** The body of the inner [for result in ...] loop. *)
Definition record_result (name : string) (serialize : FileResult -> Serialized)
    (acc : Report * bool) (result : FileResult) : Report * bool :=
  let '(results, was_successful) := acc in
  let abs_path := path_absolute R (path result) in
  let results :=
    match results !! abs_path with
    | None => <[abs_path := ∅]> results
    | Some _ => results
    end in
  let results :=
    <[abs_path := <[name := serialize result]> (default ∅ (results !! abs_path))]>
      results in
  (results, if negb (valid result) && was_successful then false else was_successful).

Definition consume (name : string) (serialize : FileResult -> Serialized)
    (yielded : list FileResult) (acc : Report * bool) : Report * bool :=
  fold_left (record_result name serialize) yielded acc.

(** [str(path)] of an element of [file_paths_to_check], which is a [str]
    or a [Path]. *)
Definition str_of_path (x : PathLike) : string :=
  match x with
  | PyStrArg s => s
  | PyPathArg p => p
  | PyPathLikeArg p => p
  | PyOtherArg => ""
  end.

(** The [logger.info] call that opens the body of the outer loop of
    [main]; [keyword] is [auditor] in one task and [formatter] in the
    other. *)
Definition log_checking (keyword : string)
    (file_paths_to_check : list PathLike) (name : string) : M unit :=
  logger_with INFO
    ("Checking " +:+ PyStr.join ", " (map str_of_path file_paths_to_check))
    [(keyword, LStr name)].

Section Main.
Context {T : Type}
        (name_of : T -> option string)
        (keyword : string)
        (file_paths_to_check : list PathLike)
        (perform : T -> State -> Stream * State)
        (serialize : FileResult -> Serialized).

(** The outer [for ..._type in ..._to_use] loop: the plugin is announced,
    then its generator is consumed as far as it goes, and the exception
    that ends it, if any, leaves the loop. *)
Fixpoint run_tools (tools : list T) (acc : Report * bool)
  : M (Report * bool) :=
  match tools with
  | [] => ret acc
  | t :: rest => fun st =>
    match name_of t with
    | None => (Raise (AttributeError "name"), st)
    | Some name =>
      match log_checking keyword file_paths_to_check name st with
      | (Raise e, st0) => (Raise e, st0)
      | (Ok _, st0) =>
        let '((yielded, err), st1) := perform t st0 in
        let acc1 := consume name serialize yielded acc in
        match err with
        | Some e => (Raise e, st1)
        | None => run_tools rest acc1 st1
        end
      end
    end
  end.

(** [[REGISTRY[name]] if name != "all" else list(REGISTRY.values())] *)
Definition select_tools (registry : dict T) (selected : string)
  : Res (list T) :=
  if negb (String.eqb selected "all") then
    match dict_get selected registry with
    | Some t => Ok [t]
    | None => Raise (KeyError selected)
    end
  else Ok (dict_values registry).

(** [list(file_paths) if file_paths else [get_project_root()]] *)
Definition paths_to_check (file_paths : list string) : M (list PathLike) :=
  match file_paths with
  | [] => root <- get_project_root ;; ret [PyPathArg root]
  | _ => ret (map PyStrArg file_paths)
  end.

(** From [with open(output, "w")] to the end of [main]. *)
Definition finish (failure : string) (output : string)
    (acc : Report * bool) (st : State) : MainOutcome * State :=
  match open_w R output (world st) with
  | (Some e, w) =>
    ({| status := Raise e; report_file := None |}, set_world w st)
  | (None, w) =>
    ({| status :=
          if negb (snd acc)
          then Raise (ClickException (failure +:+ ", see " +:+ output))
          else Ok tt;
        report_file := Some (output, fst acc) |}, set_world w st)
  end.

Definition main_of (loops : M (Report * bool)) (failure output : string)
    (st : State) : MainOutcome * State :=
  match loops st with
  | (Raise e, st1) => ({| status := Raise e; report_file := None |}, st1)
  | (Ok acc, st1) => finish failure output acc st1
  end.
End Main.

(** The two loops of [main], from the choice of the plugins on. *)
Definition loops_of {T : Type} (name_of : T -> option string)
    (keyword : string) (serialize : FileResult -> Serialized)
    (registry : dict T) (selected : string) (file_paths : list string)
    (perform_on : list PathLike -> T -> State -> Stream * State)
  : M (Report * bool) :=
  match select_tools registry selected with
  | Raise e => raise e
  | Ok tools_to_use =>
    file_paths_to_check <- paths_to_check file_paths ;;
    run_tools name_of keyword file_paths_to_check
      (perform_on file_paths_to_check) serialize tools_to_use (∅, true)
  end.

Definition mise_prefix (do_not_use_mise_exec : bool) : option (list string) :=
  if negb do_not_use_mise_exec then Some ["mise"; "exec"; "--"] else None.

Definition audit_loops (registry : dict Auditor) (auditor : string)
    (file_paths : list string) (do_not_use_mise_exec : bool)
  : M (Report * bool) :=
  loops_of auditor_name "auditor" FileAuditResult_serialize registry auditor
    file_paths
    (fun file_paths_to_check auditor_type =>
       perform_auditor_operation auditor_type AUDIT (Several file_paths_to_check)
         (mise_prefix do_not_use_mise_exec) None).

Definition audit_main (registry : dict Auditor) (auditor output : string)
    (file_paths : list string) (do_not_use_mise_exec : bool)
  : State -> MainOutcome * State :=
  main_of (audit_loops registry auditor file_paths do_not_use_mise_exec)
    "Audit check failed" output.

Definition format_loops (registry : dict Formatter) (formatter : string)
    (file_paths : list string) (do_not_use_mise_exec : bool)
  : M (Report * bool) :=
  loops_of formatter_name "formatter" FileFormatResult_serialize registry
    formatter file_paths
    (fun file_paths_to_check formatter_type =>
       perform_formatter_operation formatter_type FORMAT
         (Several file_paths_to_check) (mise_prefix do_not_use_mise_exec) None).

Definition format_main (registry : dict Formatter) (formatter output : string)
    (file_paths : list string) (do_not_use_mise_exec : bool)
  : State -> MainOutcome * State :=
  main_of (format_loops registry formatter file_paths do_not_use_mise_exec)
    "Formatting check failed" output.

(** The status the process ends with: 0 when [main] returns; click turns a
    [ClickException] into status 1, and an exception nobody catches ends
    the interpreter with status 1 as well. *)
Definition exit_status (r : Res unit) : Z :=
  match r with
  | Ok _ => 0
  | Raise _ => 1
  end.

End Scripts.

Arguments State : clear implicits.
Arguments M : clear implicits.
Arguments project_root : clear implicits.
Arguments Auditor : clear implicits.
Arguments Formatter : clear implicits.

(* ================================================================== *)
(** * A simulated host *)
(* ================================================================== *)

(** A small POSIX host to run the scripts on: a file tree, the programs
    found on the search path, and the exits of the programs that will run,
    in order. *)
Module Sim.

Record Tree := {
  files : list string;
  dirs : list string;
  git : Project.RepoLookup
}.

Record Host := {
  programs : list string;
  exits : list (Z * string * string);
  read_only : list string
}.

Definition cwd : string := "/work".

Definition mem (x : string) (l : list string) : bool :=
  existsb (String.eqb x) l.

(** The final component of a path. *)
Fixpoint name_go (cur s : string) : string :=
  match s with
  | EmptyString => cur
  | String c r =>
    if Ascii.eqb c "/"%char then name_go "" r
    else name_go (cur +:+ String c EmptyString) r
  end.

Fixpoint rfind_dot (i : nat) (cs : list ascii) (last : option nat) : option nat :=
  match cs with
  | [] => last
  | c :: r =>
    rfind_dot (S i) r (if Ascii.eqb c "."%char then Some i else last)
  end.

(** [PurePath.suffix]: from the last dot of the name, unless that dot
    begins or ends the name. *)
Definition suffix (p : Path) : string :=
  let cs := list_ascii_of_string (name_go "" p) in
  match rfind_dot 0 cs None with
  | Some i =>
    if ((0 <? i) && (i <? length cs - 1))%nat
    then string_of_list_ascii (drop i cs) else ""
  | None => ""
  end.

Definition absolute (p : Path) : string :=
  if String.prefix "/" p then p else cwd +:+ "/" +:+ p.

Definition next_exit (h : Host) : SpawnOutcome * Host :=
  match exits h with
  | [] => (Exited 0 "" "", h)
  | (rc, out, err) :: rest =>
    (Exited rc out err,
     {| programs := programs h; exits := rest; read_only := read_only h |})
  end.

(** Starting an argument vector. A program that is not installed cannot be
    executed: [execve] fails with ENOENT. The shell itself always starts;
    asked to run a program it cannot find, it exits with status 127, as
    POSIX prescribes for a command that is not found. *)
Definition spawn (argv : list string) (h : Host) : SpawnOutcome * Host :=
  match argv with
  | [] => (SpawnFailed ENOENT, h)
  | prog :: args =>
    if String.eqb prog "/bin/sh" then
      match args with
      | [_; line] =>
        let tool := hd "" (PyStr.split_space line) in
        if mem tool (programs h) then next_exit h
        else (Exited 127 "" ("/bin/sh: 1: " +:+ tool +:+ ": not found"), h)
      | _ => (Exited 2 "" "", h)
      end
    else if mem prog (programs h) then next_exit h
    else (SpawnFailed ENOENT, h)
  end.

(** The absolute path with the given components, innermost first. *)
Definition of_parts (d : Project.Dir) : string :=
  "/" +:+ PyStr.join "/" (rev d).

(** The logger of the host has its sink at the level DEBUG, the default of
    [recipes_convertor/logger.py]: every record is formatted.

    [str.format] of a message with the keywords [names] and no positional
    argument, as far as its exceptions go. The message is read from left
    to right: doubled braces are text, a single closing brace is a
    [ValueError], and so is a replacement field that is cut short or has
    an opening brace in its name. The argument of a field is looked up
    when the field is closed: no name or a number (in ASCII digits) asks
    for a positional argument, of which there is none ([IndexError]); a
    name that is no keyword is a [KeyError]. This is all there is to a
    message in which no field names one of the keywords. A field that
    does name one may go on to ask for an attribute, an index, a
    conversion or a format of its value: the host takes those to succeed,
    and no run below has such a field. *)
Inductive Scan :=
| Text
| Open
| Close
| Name (arg : string) (in_arg : bool)
| Bracket (arg : string)
| Conversion (arg : string)
| Converted (arg : string)
| Spec (arg : string) (depth : nat).

Definition is_digits (s : string) : bool :=
  forallb PyStr.ascii_digit (PyStr.bytes_of s).

Definition decimal (s : string) : N :=
  fold_left (fun n b => (10 * n + (b - 48))%N) (PyStr.bytes_of s) 0%N.

(** A number too large for an index is a [ValueError] (the host has words
    of 64 bits). *)
Definition lookup (names : list string) (arg : string) : option exn :=
  if String.eqb arg "" then Some IndexError
  else if is_digits arg then
    if (decimal arg <=? 9223372036854775807)%N then Some IndexError
    else Some ValueError
  else if mem arg names then None
  else Some (KeyError arg).

(** One character: the exception it brings, or the state after it. *)
Definition scan_step (names : list string) (state : Scan) (c : ascii)
  : exn + Scan :=
  let closed arg :=
    match lookup names arg with
    | Some e => inl e
    | None => inr Text
    end in
  match state with
  | Text =>
    if Ascii.eqb c "{" then inr Open
    else if Ascii.eqb c "}" then inr Close
    else inr Text
  | Close => if Ascii.eqb c "}" then inr Text else inl ValueError
  | Open =>
    if Ascii.eqb c "{" then inr Text
    else if Ascii.eqb c "}" then closed ""
    else if Ascii.eqb c "[" then inr (Bracket "")
    else if Ascii.eqb c ":" then inr (Spec "" 1)
    else if Ascii.eqb c "!" then inr (Conversion "")
    else if Ascii.eqb c "." then inr (Name "" false)
    else inr (Name (String c EmptyString) true)
  | Name arg in_arg =>
    if Ascii.eqb c "{" then inl ValueError
    else if Ascii.eqb c "}" then closed arg
    else if Ascii.eqb c "[" then inr (Bracket arg)
    else if Ascii.eqb c ":" then inr (Spec arg 1)
    else if Ascii.eqb c "!" then inr (Conversion arg)
    else if Ascii.eqb c "." then inr (Name arg false)
    else if in_arg then inr (Name (arg +:+ String c EmptyString) true)
    else inr (Name arg false)
  | Bracket arg =>
    if Ascii.eqb c "]" then inr (Name arg false) else inr (Bracket arg)
  | Conversion arg => inr (Converted arg)
  | Converted arg =>
    if Ascii.eqb c "}" then closed arg
    else if Ascii.eqb c ":" then inr (Spec arg 1)
    else inl ValueError
  | Spec arg depth =>
    if Ascii.eqb c "{" then inr (Spec arg (S depth))
    else if Ascii.eqb c "}" then
      match depth with
      | 1%nat => closed arg
      | _ => inr (Spec arg (pred depth))
      end
    else inr (Spec arg depth)
  end.

Fixpoint scan (names : list string) (state : Scan) (message : string)
  : option exn :=
  match message with
  | EmptyString =>
    match state with
    | Text => None
    | _ => Some ValueError
    end
  | String c rest =>
    match scan_step names state c with
    | inl e => Some e
    | inr state' => scan names state' rest
    end
  end.

Definition format_error (message : string) (names : list string)
  : option exn :=
  scan names Text message.

Definition between (lo hi c : N) : bool := ((lo <=? c) && (c <=? hi))%N.

(** The Latin-1 supplement of the Unicode character database; code points
    from U+0100 on are left unassigned. *)
Definition latin1 : PyStr.UnicodeData :=
  {| PyStr.ud_isalpha c :=
       (c =? 170)%N || (c =? 181)%N || (c =? 186)%N
       || between 192 214 c || between 216 246 c || between 248 255 c;
     PyStr.ud_isdecimal _ := false;
     PyStr.ud_isdigit c := (c =? 178)%N || (c =? 179)%N || (c =? 185)%N;
     PyStr.ud_isnumeric c :=
       (c =? 178)%N || (c =? 179)%N || (c =? 185)%N || between 188 190 c;
     PyStr.ud_isupper c := between 192 214 c || between 216 222 c;
     PyStr.ud_istitle _ := false;
     PyStr.ud_islower c :=
       (c =? 170)%N || (c =? 181)%N || (c =? 186)%N
       || between 223 246 c || between 248 255 c;
     PyStr.ud_lower c :=
       [if between 192 214 c || between 216 222 c then (c + 32)%N else c];
     PyStr.ud_isprintable c := between 161 255 c && negb (c =? 173)%N |}.

Definition runtime (t : Tree) : Runtime :=
  {| World := Host;
     path_of_str s := s;
     path_suffix := suffix;
     path_absolute := absolute;
     path_exists p := mem p (files t) || mem p (dirs t);
     path_is_file p := mem p (files t);
     path_is_dir p := mem p (dirs t);
     path_of_parts := of_parts;
     path_cwd := ["work"];
     git_repo := git t;
     os_spawn := spawn;
     open_w p h :=
       (if mem p (read_only h) then Some (OSError EACCES) else None, h);
     logger_format _ message kwargs := format_error message (map fst kwargs);
     unicode := latin1 |}.

(** The tree with the given files under the working directory, which is
    the working tree of a git repository. *)
Definition tree (fs : list string) : Tree :=
  {| files := fs; dirs := [cwd]; git := Project.Found (Some ["work"]) |}.

(** A host with [mise] and the two tools installed. *)
Definition host (xs : list (Z * string * string)) : Host :=
  {| programs := ["mise"; "flake8"; "black"]; exits := xs; read_only := [] |}.

Definition start {t : Tree} (h : Host) : State (runtime t) :=
  {| world := (h : World (runtime t)); spawned := []; warnings := [] |}.

End Sim.

(* ================================================================== *)
(** * The vocabulary of the properties *)
(* ================================================================== *)

Section Vocabulary.
Context {R : Runtime}.

(** The argument vector a run of the command hands to the operating
    system. *)
Definition argv_of (self : list string) (use_shell : bool)
    (command_prefix command_suffix : option (list string)) : list string :=
  popen_argv (construct_command self use_shell command_prefix command_suffix)
    use_shell.

(** What the logging call of a run of the command raises, if it raises:
    the exception of formatting the record of the command. *)
Definition running_error (self : list string)
    (check capture_output use_shell : bool)
    (command_prefix command_suffix : option (list string)) : option exn :=
  let constructed :=
    construct_command self use_shell command_prefix command_suffix in
  logger_format R DEBUG
    ("Running command: " +:+ str_of_command (R:=R) constructed)
    [("cmd", value_of_command constructed);
     ("using_shell", LBool use_shell);
     ("capturing_output", LBool capture_output);
     ("throw_error_on_non_zero_return_code", LBool check)].

(** What the announcement of a plugin in [main] raises, if it raises. *)
Definition checking_error (keyword : string)
    (file_paths_to_check : list PathLike) (name : string) : option exn :=
  logger_format R INFO
    ("Checking " +:+ PyStr.join ", " (map str_of_path file_paths_to_check))
    [(keyword, LStr name)].

(** Output the runner can turn into text: nothing captured, or two streams
    of valid UTF-8. *)
Definition utf8_valid (b : string) : bool :=
  bool_decide (is_Some (PyStr.utf8_decode (PyStr.bytes_of b))).

Definition decodable (capture : bool) (out err : string) : bool :=
  negb capture || (utf8_valid out && utf8_valid err).

(** One stream, then another one unless the first ended in an exception. *)
Definition then_stream (a : Stream * State R)
    (k : State R -> Stream * State R) : Stream * State R :=
  match a with
  | ((yielded, Some e), st1) => ((yielded, Some e), st1)
  | ((yielded, None), st1) =>
    ((yielded ++ fst (fst (k st1)), snd (fst (k st1))), snd (k st1))
  end.

(** A result with its validity turned over. *)
Definition flip_valid (r : FileResult) : FileResult :=
  {| path := path r; path_type := path_type r; valid := negb (valid r);
     tool := tool r; formatted := formatted r; output := output r |}.

(** Every result the generators yield in the course of the outer loop of
    [main], in the order of the run. *)
Fixpoint produced {T : Type} (name_of : T -> option string)
    (keyword : string) (file_paths_to_check : list PathLike)
    (perform : T -> State R -> Stream * State R)
    (tools : list T) (st : State R) : list FileResult :=
  match tools with
  | [] => []
  | t :: rest =>
    match name_of t with
    | None => []
    | Some name =>
      match log_checking keyword file_paths_to_check name st with
      | (Raise _, _) => []
      | (Ok _, st0) =>
        fst (fst (perform t st0))
        ++ match snd (fst (perform t st0)) with
           | Some _ => []
           | None =>
             produced name_of keyword file_paths_to_check perform rest
               (snd (perform t st0))
           end
      end
    end
  end.

Definition results_of {T : Type} (name_of : T -> option string)
    (keyword : string)
    (registry : dict T) (selected : string) (file_paths : list string)
    (perform_on : list PathLike -> T -> State R -> Stream * State R)
    (st : State R) : list FileResult :=
  match select_tools registry selected, paths_to_check file_paths st with
  | Ok tools_to_use, (Ok file_paths_to_check, st0) =>
    produced name_of keyword file_paths_to_check
      (perform_on file_paths_to_check) tools_to_use st0
  | _, _ => []
  end.

(** The results a run of the audit task produces, and those of the format
    task. *)
Definition audit_results (registry : dict (Auditor R)) (auditor : string)
    (file_paths : list string) (do_not_use_mise_exec : bool) (st : State R)
  : list FileResult :=
  results_of auditor_name "auditor" registry auditor file_paths
    (fun file_paths_to_check auditor_type =>
       perform_auditor_operation auditor_type AUDIT (Several file_paths_to_check)
         (mise_prefix do_not_use_mise_exec) None) st.

Definition format_results (registry : dict (Formatter R)) (formatter : string)
    (file_paths : list string) (do_not_use_mise_exec : bool) (st : State R)
  : list FileResult :=
  results_of formatter_name "formatter" registry formatter file_paths
    (fun file_paths_to_check formatter_type =>
       perform_formatter_operation formatter_type FORMAT
         (Several file_paths_to_check) (mise_prefix do_not_use_mise_exec) None)
    st.


(** The success flag a run of the loops ends with, if it ends. *)
Definition flag_of (run : Res (Report * bool) * State R) : option bool :=
  match fst run with
  | Ok acc => Some (snd acc)
  | Raise _ => None
  end.

(** The test a name has passed when the discovery registers it. *)
Definition name_checked (name : string) : Prop :=
  PyStr.lower (unicode R) name <> "all"
  /\ PyStr.isalnum (unicode R) name = true
  /\ PyStr.islower (unicode R) name = true.

End Vocabulary.

Arguments running_error : clear implicits.
Arguments checking_error : clear implicits.

(** ** Inputs of the runs on the simulated host *)

(** The word [cafe] with an acute accent on the [e]: the code points 99,
    97, 102 and 233. *)
Definition cafe : string :=
  "caf" +:+ String (ascii_of_nat 195) (String (ascii_of_nat 169) EmptyString).

Definition CafeAuditor : Auditor (Sim.runtime (Sim.tree [])) :=
  {| auditor_class := "CafeAuditor";
     auditor_name := Some cafe;
     auditor_is_supported_filetype :=
       py_is_supported_filetype (R:=Sim.runtime (Sim.tree []));
     auditor_audit := FlakeEightAuditor_audit |}.

Definition CafeFormatter : Formatter (Sim.runtime (Sim.tree [])) :=
  {| formatter_class := "CafeFormatter";
     formatter_name := Some cafe;
     formatter_is_supported_filetype :=
       py_is_supported_filetype (R:=Sim.runtime (Sim.tree []));
     formatter_check := BlackFormatter_check;
     formatter_format := BlackFormatter_format |}.

(** One byte that no UTF-8 text contains. *)
Definition byte_ff : string := String (ascii_of_nat 255) EmptyString.


Definition one_file : Runtime := Sim.runtime (Sim.tree ["a.py"]).
Definition two_files : Runtime := Sim.runtime (Sim.tree ["a.py"; "b.py"]).
Definition mixed_files : Runtime := Sim.runtime (Sim.tree ["a.py"; "notes.txt"]).

Definition flake8_registry {R : Runtime} : dict (Auditor R) :=
  [("flake8", FlakeEightAuditor)].
Definition black_registry {R : Runtime} : dict (Formatter R) :=
  [("black", BlackFormatter)].


(* ================================================================== *)
(** * More of the scripts *)
(* ================================================================== *)


(** ** More vocabulary *)

(** The elements of [file_paths] that are a [Path] or a [str]. *)
Definition is_path_like (x : PathLike) : bool :=
  match x with
  | PyStrArg _ | PyPathArg _ => true
  | PyPathLikeArg _ | PyOtherArg => false
  end.

Fixpoint has_space (s : string) : bool :=
  match s with
  | EmptyString => false
  | String c r => Ascii.eqb c " " || has_space r
  end.

Definition skip_warning (file_path : Path) : string :=
  "File is not a supported filetype: " +:+ file_path.

(** The class is registered under the name [n]. *)
Definition named {T : Type} (name_of : T -> option string) (n : string)
    (item : T) : bool :=
  match name_of item with
  | Some m => String.eqb m n
  | None => false
  end.

(** The processes a result of [BlackFormatter.format] has cost. *)
Definition format_cost (r : FileResult) : nat :=
  match formatted r with
  | Some true => 2
  | _ => 1
  end.

(** The result is about a target with the absolute path [k]. *)
Definition at_path {R : Runtime} (k : string) (r : FileResult) : bool :=
  String.eqb (path_absolute R (path r)) k.

(** [results[abs_path][name]], when both keys are there. *)
Definition report_entry (results : Report) (abs_path name : string)
  : option Serialized :=
  results !! abs_path ≫= (fun by_name => by_name !! name).

(** The name is written in ASCII. *)
Definition ascii_only (s : string) : bool :=
  forallb (fun b => b <? 128)%N (PyStr.bytes_of s).

(** The name has a letter of [a-z] in it. *)
Definition has_ascii_lower (s : string) : bool :=
  existsb PyStr.ascii_lower (PyStr.bytes_of s).

(** ** More inputs of the runs on the simulated host *)

(** A class of the auditors package with the given [__name__] and the
    given [name] attribute, or none. *)
Definition auditor_named (class : string) (name : option string)
  : Auditor (Sim.runtime (Sim.tree [])) :=
  {| auditor_class := class;
     auditor_name := name;
     auditor_is_supported_filetype :=
       py_is_supported_filetype (R:=Sim.runtime (Sim.tree []));
     auditor_audit := FlakeEightAuditor_audit |}.

(** No git repository, and a [pyproject.toml] in the working directory. *)
Definition no_git_tree : Sim.Tree :=
  {| Sim.files := ["/work/pyproject.toml"]; Sim.dirs := [Sim.cwd];
     Sim.git := Project.Invalid |}.

Definition no_git : Runtime := Sim.runtime no_git_tree.
(* ================================================================== *)
(** * Properties *)
(* ================================================================== *)

Section CommandRunner.
Context {R : Runtime}.
Implicit Types (st : State R) (self : list string).

Lemma subprocess_run_state args shell check capture st :
  let st' := snd (subprocess_run args shell check capture st) in
  spawned st' = spawned st ++ [popen_argv args shell]
  /\ warnings st' = warnings st
  /\ world st' = snd (os_spawn R (popen_argv args shell) (world st)).
Proof.
  unfold subprocess_run.
  destruct (os_spawn R (popen_argv args shell) (world st)) as [[e|rc out err] w];
    simpl; [easy|].
  destruct (check && negb (rc =? 0)); simpl; easy.
Qed.

Lemma from_subprocess_result_state (e : Execution) st :
  snd (from_subprocess_result e st) = st.
Proof.
  unfold from_subprocess_result.
  destruct (decode_stream (cp_stdout (ex_result e))); [|reflexivity].
  destruct (decode_stream (cp_stderr (ex_result e))); reflexivity.
Qed.

(** A run whose record cannot be logged raises before it starts a
    process. *)
Lemma Command_run_unlogged self check capture use_shell pre suf st e :
  running_error R self check capture use_shell pre suf = Some e ->
  Command_run self check capture use_shell pre suf st = (Raise e, st).
Proof.
  unfold running_error. intros H.
  unfold Command_run, Command_execute, bind, log_running, logger_with.
  rewrite H. reflexivity.
Qed.

(** Any other run starts exactly one process and logs no warning. *)
Lemma Command_run_state self check capture use_shell pre suf st :
  running_error R self check capture use_shell pre suf = None ->
  let st' := snd (Command_run self check capture use_shell pre suf st) in
  spawned st' = spawned st ++ [argv_of self use_shell pre suf]
  /\ warnings st' = warnings st.
Proof.
  unfold running_error. intros Hlog.
  unfold Command_run, Command_execute, bind, ret, argv_of, log_running,
    logger_with.
  rewrite Hlog.
  pose proof (subprocess_run_state
                (construct_command self use_shell pre suf)
                use_shell check capture st) as H.
  destruct (subprocess_run _ _ _ _ st) as [[cp|e] st1]; simpl in *.
  - rewrite from_subprocess_result_state. tauto.
  - tauto.
Qed.

(** What the runner answers, read off the logging call and the outcome of
    the process. *)
Lemma Command_run_spec self check capture use_shell pre suf st :
  let constructed := construct_command self use_shell pre suf in
  fst (Command_run self check capture use_shell pre suf st) =
  match running_error R self check capture use_shell pre suf with
  | Some e => Raise e
  | None =>
    match fst (os_spawn R (argv_of self use_shell pre suf) (world st)) with
    | SpawnFailed e => Raise (OSError e)
    | Exited rc out err =>
      if check && negb (rc =? 0) then Raise (CalledProcessError rc constructed)
      else
        match decode_stream (if capture then Some out else None),
              decode_stream (if capture then Some err else None) with
        | Ok o, Ok e =>
          Ok {| original_command := self;
                constructed_command := constructed;
                command_prefix := pre;
                command_suffix := suf;
                executed_command := constructed;
                used_shell := use_shell;
                captured_output := capture;
                returncode := Some rc;
                error := None;
                stdout := o;
                stderr := e |}
        | Raise x, _ => Raise x
        | Ok _, Raise x => Raise x
        end
    end
  end.
Proof.
  unfold running_error.
  unfold Command_run, Command_execute, bind, ret, subprocess_run, argv_of,
    log_running, logger_with.
  destruct (logger_format R DEBUG _ _); [reflexivity|].
  destruct (os_spawn R _ (world st)) as [[e|rc out err] w]; simpl; [reflexivity|].
  destruct (check && negb (rc =? 0)); simpl; [reflexivity|].
  unfold from_subprocess_result; simpl.
  destruct (decode_stream (if capture then Some out else None)); [|reflexivity].
  destruct (decode_stream (if capture then Some err else None)); reflexivity.
Qed.

(** A run that returns has logged its record and started its process. *)
Lemma Command_run_returns self check capture use_shell pre suf st r st' :
  Command_run self check capture use_shell pre suf st = (Ok r, st') ->
  running_error R self check capture use_shell pre suf = None
  /\ spawned st' = spawned st ++ [argv_of self use_shell pre suf]
  /\ warnings st' = warnings st.
Proof.
  intros Hrun.
  destruct (running_error R self check capture use_shell pre suf) as [e|] eqn:Hlog.
  - rewrite (Command_run_unlogged _ _ _ _ _ _ st e Hlog) in Hrun. discriminate.
  - split; [reflexivity|].
    pose proof (Command_run_state self check capture use_shell pre suf st Hlog)
      as H.
    rewrite Hrun in H. exact H.
Qed.

Lemma decode_stream_valid (b : string) :
  utf8_valid b = true -> exists o, decode_stream (Some b) = Ok o.
Proof.
  unfold utf8_valid, decode_stream. intros H.
  apply bool_decide_eq_true in H. destruct H as [cs Hcs].
  destruct b; [eauto|]. rewrite Hcs. eauto.
Qed.


Lemma decode_stream_invalid (b : string) :
  utf8_valid b = false -> decode_stream (Some b) = Raise UnicodeDecodeError.
Proof.
  unfold utf8_valid, decode_stream. intros H.
  apply bool_decide_eq_false in H.
  destruct b as [|c b]; [exfalso; apply H; simpl; eauto|].
  destruct (PyStr.utf8_decode _) as [cs|]; [|reflexivity].
  exfalso. apply H. eauto.
Qed.

Lemma decode_stream_some (b : string) (o : option string) :
  decode_stream (Some b) = Ok o ->
  o = if String.eqb b "" then None else Some b.
Proof.
  unfold decode_stream. destruct b as [|c b]; [intros [= <-]; reflexivity|].
  destruct (PyStr.utf8_decode _); [|discriminate].
  intros [= <-]. reflexivity.
Qed.

(** The two streams of a captured output go through [decode] one after
    the other. *)
Lemma decode_both (out err : string) :
  match decode_stream (Some out), decode_stream (Some err) with
  | Ok o, Ok e => decodable true out err = true
  | Raise x, _ => decodable true out err = false /\ x = UnicodeDecodeError
  | Ok _, Raise x => decodable true out err = false /\ x = UnicodeDecodeError
  end.
Proof.
  unfold decodable. cbn [negb orb].
  destruct (utf8_valid out) eqn:Ho.
  - destruct (decode_stream_valid out Ho) as [o ->]. cbn [andb].
    destruct (utf8_valid err) eqn:He.
    + destruct (decode_stream_valid err He) as [e ->]. reflexivity.
    + rewrite (decode_stream_invalid err He). split; reflexivity.
  - rewrite (decode_stream_invalid out Ho). split; reflexivity.
Qed.



End CommandRunner.

Section Plugins.
Context {R : Runtime}.
Implicit Types (st : State R) (file_path : Path).

(** What a plugin gets back from the runner, called as the plugins call
    it: without the flag, with the output captured, through the shell. *)
Lemma Command_run_plugin (base : list string) pre suf st :
  fst (Command_run base false true true pre suf st) =
  match running_error R base false true true pre suf with
  | Some e => Raise e
  | None =>
    match fst (os_spawn R (argv_of base true pre suf) (world st)) with
    | SpawnFailed e => Raise (OSError e)
    | Exited rc out err =>
      if decodable true out err then
        Ok {| original_command := base;
              constructed_command := construct_command base true pre suf;
              command_prefix := pre;
              command_suffix := suf;
              executed_command := construct_command base true pre suf;
              used_shell := true;
              captured_output := true;
              returncode := Some rc;
              error := None;
              stdout := if String.eqb out "" then None else Some out;
              stderr := if String.eqb err "" then None else Some err |}
      else Raise UnicodeDecodeError
    end
  end.
Proof.
  rewrite Command_run_spec.
  destruct (running_error R base false true true pre suf); [reflexivity|].
  destruct (fst (os_spawn R _ (world st))) as [e|rc out err]; [reflexivity|].
  cbn [andb negb]. pose proof (decode_both out err) as H.
  destruct (decode_stream (Some out)) as [o|x] eqn:Ho;
    [destruct (decode_stream (Some err)) as [e|x] eqn:He|].
  - rewrite H. apply decode_stream_some in Ho, He. subst o e. reflexivity.
  - destruct H as [-> ->]. reflexivity.
  - destruct H as [-> ->]. reflexivity.
Qed.

(** C2, as amended. [FlakeEightAuditor.audit] and [BlackFormatter.check]
    on a file whose command can be logged and whose tool runs to its end
    with exit code [rc]. When the output of the tool is text, they answer
    by that code alone: 0 gives a result with [valid = True], 1 a result
    with [valid = False], and any other code raises the error of the family
    ([AuditorError], [FormatterError]) carrying that code, and no result.
    When the output is not valid UTF-8, they raise [UnicodeDecodeError]
    whatever the code. *)
Theorem exit_code_classification :
  forall file_path (command_prefix command_suffix : option (list string))
         st (rc : Z) (out err : string),
    let suffix := Some (file_path :: or_empty command_suffix) in
    (running_error R ["flake8"] false true true command_prefix suffix = None ->
     fst (os_spawn R (argv_of ["flake8"] true command_prefix suffix)
            (world st)) = Exited rc out err ->
     let audit := FlakeEightAuditor_audit file_path command_prefix
                    command_suffix st in
     (decodable true out err = true ->
      (rc = 0 -> exists fr, fst audit = Ok fr /\ valid fr = true
                            /\ path fr = file_path)
      /\ (rc = 1 -> exists fr, fst audit = Ok fr /\ valid fr = false
                               /\ path fr = file_path)
      /\ (rc <> 0 -> rc <> 1 ->
          exists msg, fst audit = Raise (AuditorError msg (Some rc))))
     /\ (decodable true out err = false ->
         fst audit = Raise UnicodeDecodeError))
    /\
    (running_error R ["black"; "--check"] false true true command_prefix suffix
     = None ->
     fst (os_spawn R (argv_of ["black"; "--check"] true command_prefix suffix)
            (world st)) = Exited rc out err ->
     let check := BlackFormatter_check file_path command_prefix
                    command_suffix st in
     (decodable true out err = true ->
      (rc = 0 -> exists fr, fst check = Ok fr /\ valid fr = true
                            /\ path fr = file_path)
      /\ (rc = 1 -> exists fr, fst check = Ok fr /\ valid fr = false
                               /\ path fr = file_path)
      /\ (rc <> 0 -> rc <> 1 ->
          exists msg, fst check = Raise (FormatterError msg (Some rc))))
     /\ (decodable true out err = false ->
         fst check = Raise UnicodeDecodeError)).
Proof.
  intros file_path pre suf st rc out err suffix. split; intros Hlog Hsp.
  - pose proof (Command_run_plugin (Command (CmdList ["flake8"])) pre suffix
                  st) as Hrun.
    change (Command (CmdList ["flake8"])) with ["flake8"] in Hrun at 2 3.
    rewrite Hlog, Hsp in Hrun. simpl. unfold FlakeEightAuditor_audit, bind.
    fold suffix.
    destruct (Command_run (Command (CmdList ["flake8"])) false true true pre
                suffix st) as [[r|e] st1]; simpl in Hrun; split; intros Hdec;
      rewrite Hdec in Hrun; simpl in Hrun; try discriminate.
    + injection Hrun as ->. simpl.
      destruct rc as [|[p|p|]|p]; simpl;
        repeat split; intros; try congruence; try lia; eauto.
    + injection Hrun as ->. reflexivity.
  - pose proof (Command_run_plugin (Command (CmdList ["black"; "--check"]))
                  pre suffix st) as Hrun.
    change (Command (CmdList ["black"; "--check"]))
      with ["black"; "--check"] in Hrun at 2 3.
    rewrite Hlog, Hsp in Hrun. simpl. unfold BlackFormatter_check, bind.
    fold suffix.
    destruct (Command_run (Command (CmdList ["black"; "--check"])) false true
                true pre suffix st) as [[r|e] st1]; simpl in Hrun;
      split; intros Hdec; rewrite Hdec in Hrun; simpl in Hrun;
      try discriminate.
    + injection Hrun as ->. simpl.
      destruct rc as [|[p|p|]|p]; simpl;
        repeat split; intros; try congruence; try lia; eauto.
    + injection Hrun as ->. reflexivity.
Qed.

(** A check that returns has logged its record and started its process,
    and nothing else. *)
Lemma BlackFormatter_check_state file_path pre suf st r st' :
  BlackFormatter_check file_path pre suf st = (Ok r, st') ->
  spawned st' = spawned st
                ++ [argv_of ["black"; "--check"] true pre
                      (Some (file_path :: or_empty suf))]
  /\ warnings st' = warnings st.
Proof.
  unfold BlackFormatter_check, bind.
  destruct (Command_run _ _ _ _ _ _ st) as [[r0|e] st1] eqn:Hrun;
    [|discriminate].
  apply Command_run_returns in Hrun as (_ & Hs & Hw).
  destruct (returncode r0) as [[|[q|q|]|q]|]; simpl;
    try discriminate; intros [= _ <-]; split; assumption.
Qed.

(** [BlackFormatter.format], case by case. *)
Lemma BlackFormatter_format_cases file_path pre suf st :
  let checked := BlackFormatter_check file_path pre suf st in
  let ran := Command_run (Command (CmdList ["black"])) false true true pre
               (Some (file_path :: or_empty suf)) (snd checked) in
  BlackFormatter_format file_path pre suf st =
  match fst checked with
  | Raise e => (Raise e, snd checked)
  | Ok c =>
    if valid c then
      (Ok (FileFormatResult (R:=R) file_path "BlackFormatter" true
             (Some false) None), snd checked)
    else
      match fst ran with
      | Raise e => (Raise e, snd ran)
      | Ok r =>
        if bool_decide (returncode r = Some 0) then
          (Ok (FileFormatResult (R:=R) file_path "BlackFormatter" true
                 (Some true) (Some (combined_output r))), snd ran)
        else
          (Raise (FormatterError_new
                    ("Failed to format file: " +:+ file_path)
                    (returncode r)), snd ran)
      end
  end.
Proof.
  unfold BlackFormatter_format, bind.
  destruct (BlackFormatter_check file_path pre suf st) as [[c|e] st1];
    simpl; [|reflexivity].
  destruct (valid c); simpl; [reflexivity|].
  destruct (Command_run _ _ _ _ _ _ st1) as [[r|e] st2]; simpl; [|reflexivity].
  destruct (bool_decide (returncode r = Some 0)); reflexivity.
Qed.

(** C3, as amended. [BlackFormatter.format] starts with [check], and what
    [check] raises is what [format] raises. If [check] finds the file
    valid, [format] returns at once with [formatted = False] and the
    process of [check] stays the only one. If [check] finds it invalid,
    the formatting command is run next: unless its record cannot be logged,
    it is the second and last process, and when it runs to its end with
    text for output, any non-zero exit raises [FormatterError] with that
    code and exit 0 gives [valid = True], [formatted = True]. When its
    output is not valid UTF-8, [format] raises [UnicodeDecodeError]
    whatever the exit code. *)
Theorem format_checks_first :
  forall file_path (command_prefix command_suffix : option (list string)) st,
    let suffix := Some (file_path :: or_empty command_suffix) in
    let check := BlackFormatter_check file_path command_prefix command_suffix st in
    let out := BlackFormatter_format file_path command_prefix command_suffix st in
    let check_argv := argv_of ["black"; "--check"] true command_prefix suffix in
    let format_argv := argv_of ["black"] true command_prefix suffix in
    let logged := running_error R ["black"] false true true command_prefix
                    suffix in
    (forall e, fst check = Raise e -> out = (Raise e, snd check))
    /\ (forall checked,
          fst check = Ok checked -> valid checked = true ->
          out = (Ok (FileFormatResult (R:=R) file_path "BlackFormatter" true
                       (Some false) None), snd check)
          /\ spawned (snd out) = spawned st ++ [check_argv])
    /\ (forall checked,
          fst check = Ok checked -> valid checked = false ->
          (forall e, logged = Some e ->
                     out = (Raise e, snd check)
                     /\ spawned (snd out) = spawned st ++ [check_argv])
          /\ (logged = None ->
              spawned (snd out) = spawned st ++ [check_argv; format_argv]
              /\ (forall errno,
                    fst (os_spawn R format_argv (world (snd check)))
                      = SpawnFailed errno ->
                    fst out = Raise (OSError errno))
              /\ (forall rc o e,
                    fst (os_spawn R format_argv (world (snd check)))
                      = Exited rc o e ->
                    (decodable true o e = false ->
                     fst out = Raise UnicodeDecodeError)
                    /\ (decodable true o e = true ->
                        (rc <> 0 ->
                         exists msg,
                           fst out = Raise (FormatterError msg (Some rc)))
                        /\ (rc = 0 ->
                            exists output,
                              fst out
                              = Ok (FileFormatResult (R:=R) file_path
                                      "BlackFormatter" true (Some true)
                                      (Some output))))))).
Proof.
  intros file_path pre suf st suffix check out check_argv format_argv logged.
  subst out. rewrite BlackFormatter_format_cases. fold suffix check.
  destruct check as [[checked|e] st1] eqn:Hcheck; simpl.
  - apply BlackFormatter_check_state in Hcheck as [Hsp _].
    fold suffix check_argv in Hsp.
    split; [discriminate|]. split.
    + intros ? [= <-] Hv. rewrite Hv. simpl. split; [reflexivity|exact Hsp].
    + intros ? [= <-] Hv. rewrite Hv. split.
      * intros e He.
        rewrite (Command_run_unlogged _ _ _ _ _ _ st1 e He). simpl.
        split; [reflexivity|exact Hsp].
      * intros Hlog.
        pose proof (Command_run_state (Command (CmdList ["black"])) false true
                      true pre suffix st1 Hlog) as [Hsp2 _].
        fold format_argv in Hsp2.
        pose proof (Command_run_plugin ["black"] pre suffix st1) as Hrun.
        fold logged in Hrun. rewrite Hlog in Hrun. fold format_argv in Hrun.
        change (Command (CmdList ["black"])) with ["black"] in *.
        set (ran := Command_run ["black"] false true true pre suffix st1) in *.
        assert (Hs : forall res,
                  spawned (snd (match fst ran with
                                | Ok r =>
                                  if bool_decide (returncode r = Some 0)
                                  then (Ok (FileFormatResult (R:=R) file_path
                                              "BlackFormatter" true (Some true)
                                              (Some (combined_output r))),
                                        snd ran)
                                  else (Raise (FormatterError_new
                                                 ("Failed to format file: "
                                                  +:+ file_path)
                                                 (returncode r)), snd ran)
                                | Raise e => (res e, snd ran)
                                end))
                  = spawned st ++ [check_argv; format_argv]).
        { intros res. destruct (fst ran) as [r|e];
            [destruct (bool_decide (returncode r = Some 0))|]; simpl;
            rewrite Hsp2, Hsp, <- app_assoc; reflexivity. }
        split; [exact (Hs (fun e => Raise e))|]. split.
        -- intros errno Hsp3. rewrite Hsp3 in Hrun. rewrite Hrun. reflexivity.
        -- intros rc o e Hsp3. rewrite Hsp3 in Hrun. split.
           ++ intros Hdec. rewrite Hdec in Hrun. rewrite Hrun. reflexivity.
           ++ intros Hdec. rewrite Hdec in Hrun. rewrite Hrun. simpl. split.
              ** intros Hrc. rewrite bool_decide_eq_false_2 by congruence.
                 simpl. eexists. reflexivity.
              ** intros ->. simpl. eexists. reflexivity.
  - split; [intros ? [= <-]; reflexivity|].
    split; intros; discriminate.
Qed.

Lemma BlackFormatter_format_valid file_path pre suf st fr st' :
  BlackFormatter_format file_path pre suf st = (Ok fr, st') ->
  valid fr = true /\ path fr = file_path.
Proof.
  unfold BlackFormatter_format, bind.
  destruct (BlackFormatter_check file_path pre suf st) as [[checked|e] st1];
    [|discriminate].
  destruct (valid checked); simpl.
  - intros [= <- _]. split; reflexivity.
  - destruct (Command_run _ _ _ _ _ _ st1) as [[r|e] st2]; [|discriminate].
    destruct (bool_decide (returncode r = Some 0)); simpl; [|discriminate].
    intros [= <- _]. split; reflexivity.
Qed.

Lemma FlakeEightAuditor_audit_path file_path pre suf st fr st' :
  FlakeEightAuditor_audit file_path pre suf st = (Ok fr, st') ->
  path fr = file_path.
Proof.
  unfold FlakeEightAuditor_audit, bind.
  destruct (Command_run _ _ _ _ _ _ st) as [[r|e] st1]; [|discriminate].
  destruct (returncode r) as [[|[q|q|]|q]|]; simpl;
    try discriminate; intros [= <- _]; reflexivity.
Qed.

End Plugins.

Section Orchestration.
Context {R : Runtime}.
Implicit Types (st : State R) (yielded : list FileResult).

Lemma then_stream_yield_first r (a : Stream * State R) k :
  then_stream (yield_first r a) k = yield_first r (then_stream a k).
Proof. destruct a as [[ys [e|]] st1]; reflexivity. Qed.

Section PerformLoop.
Context (new_error : string -> option Z -> exn)
        (is_supported_filetype : Path -> bool)
        (operation_method : Verb (R:=R))
        (command_prefix command_suffix : option (list string)).

Abbreviation loop := (perform_loop new_error is_supported_filetype
                   operation_method command_prefix command_suffix).

Lemma perform_loop_app (xs ys : list Path) st :
  loop (xs ++ ys) st = then_stream (loop xs st) (loop ys).
Proof.
  revert st. induction xs as [|x xs IH]; intros st; simpl.
  - destruct (loop ys st) as [[zs e] st1]. reflexivity.
  - destruct (path_exists R x); simpl; [|reflexivity].
    destruct (is_supported_filetype x); simpl; [|apply IH].
    destruct (operation_method x command_prefix command_suffix st)
      as [[r|e] st1]; [|reflexivity].
    rewrite IH, then_stream_yield_first. reflexivity.
Qed.



(** Every result of the stream was returned by the verb, called on a
    target that exists and that the plugin supports. *)
Lemma perform_loop_yielded (paths : list Path) st r :
  In r (fst (fst (loop paths st))) ->
  exists p s s',
    In p paths /\ path_exists R p = true /\ is_supported_filetype p = true
    /\ operation_method p command_prefix command_suffix s = (Ok r, s').
Proof.
  revert st. induction paths as [|x xs IH]; intros st; simpl; [tauto|].
  destruct (path_exists R x) eqn:Hex; simpl; [|tauto].
  destruct (is_supported_filetype x) eqn:Hsup; simpl.
  - destruct (operation_method x command_prefix command_suffix st)
      as [[r0|e] st1] eqn:Hm; simpl; [|tauto].
    intros [<-|Hin].
    + exists x, st, st1. tauto.
    + destruct (IH _ Hin) as (p & s & s' & Hp & H). exists p, s, s'. tauto.
  - intros Hin. destruct (IH _ Hin) as (p & s & s' & Hp & H).
    exists p, s, s'. tauto.
Qed.


End PerformLoop.


Lemma record_result_flag name serialize (acc : Report * bool) r :
  snd (record_result (R:=R) name serialize acc r) = snd acc && valid r.
Proof. destruct acc as [rep [|]]; simpl; destruct (valid r); reflexivity. Qed.

Lemma record_result_dom name serialize (acc : Report * bool) r k :
  k ∈ dom (fst (record_result (R:=R) name serialize acc r))
  <-> k ∈ dom (fst acc) \/ path_absolute R (path r) = k.
Proof.
  destruct acc as [rep ok]; simpl.
  rewrite dom_insert, elem_of_union, elem_of_singleton.
  destruct (rep !! path_absolute R (path r)) eqn:H.
  - intuition congruence.
  - rewrite dom_insert, elem_of_union, elem_of_singleton.
    intuition congruence.
Qed.

Lemma consume_flag name serialize yielded (acc : Report * bool) :
  snd (consume (R:=R) name serialize yielded acc)
  = snd acc && forallb valid yielded.
Proof.
  unfold consume. revert acc.
  induction yielded as [|r ys IH]; intros acc; simpl.
  - rewrite andb_true_r. reflexivity.
  - rewrite IH, record_result_flag, andb_assoc. reflexivity.
Qed.

Lemma consume_dom name serialize yielded (acc : Report * bool) k :
  k ∈ dom (fst (consume (R:=R) name serialize yielded acc))
  <-> k ∈ dom (fst acc)
      \/ exists r, In r yielded /\ path_absolute R (path r) = k.
Proof.
  unfold consume. revert acc.
  induction yielded as [|r ys IH]; intros acc; simpl.
  - split; [tauto|]. intros [H|(r & [] & _)]. exact H.
  - rewrite IH, record_result_dom. split.
    + intros [[H|H]|(r0 & H1 & H2)].
      * left. exact H.
      * right. exists r. split; [left; reflexivity|exact H].
      * right. exists r0. split; [right; exact H1|exact H2].
    + intros [H|(r0 & [<-|H1] & H2)].
      * left. left. exact H.
      * left. right. exact H2.
      * right. exists r0. split; assumption.
Qed.

Lemma log_checking_spec keyword (file_paths_to_check : list PathLike)
    name st :
  log_checking (R:=R) keyword file_paths_to_check name st =
  match checking_error R keyword file_paths_to_check name with
  | Some e => (Raise e, st)
  | None => (Ok tt, st)
  end.
Proof. reflexivity. Qed.

Section RunTools.
Context {T : Type}
        (name_of : T -> option string)
        (keyword : string)
        (file_paths_to_check : list PathLike)
        (perform : T -> State R -> Stream * State R)
        (serialize : FileResult -> Serialized).

Lemma run_tools_produced tools (acc acc' : Report * bool) st st' :
  run_tools name_of keyword file_paths_to_check perform serialize tools acc st
    = (Ok acc', st') ->
  snd acc' = snd acc
             && forallb valid
                  (produced name_of keyword file_paths_to_check perform
                     tools st)
  /\ forall k, k ∈ dom (fst acc')
               <-> k ∈ dom (fst acc)
                   \/ exists r, In r (produced name_of keyword
                                        file_paths_to_check perform tools st)
                                /\ path_absolute R (path r) = k.
Proof.
  revert acc st. induction tools as [|t rest IH]; intros acc st; simpl.
  - intros [= <- <-]. rewrite andb_true_r. split; [reflexivity|].
    intros k. split; [tauto|]. intros [H|(r & [] & _)]. exact H.
  - destruct (name_of t) as [name|]; [|discriminate].
    rewrite log_checking_spec.
    destruct (checking_error R keyword file_paths_to_check name);
      [discriminate|].
    destruct (perform t st) as [[ys [e|]] st1]; [discriminate|]. simpl.
    intros H. apply IH in H as [Hflag Hdom]. split.
    + rewrite Hflag, consume_flag, forallb_app, andb_assoc. reflexivity.
    + intros k. rewrite Hdom, consume_dom. split.
      * intros [[?|(r & ? & ?)]|(r & ? & ?)]; [tauto| |];
          right; exists r; rewrite in_app_iff; tauto.
      * intros [?|(r & Hin & ?)]; [tauto|].
        apply in_app_iff in Hin as [?|?]; eauto.
Qed.

Lemma produced_by tools st r :
  In r (produced name_of keyword file_paths_to_check perform tools st) ->
  exists t s, In t tools /\ In r (fst (fst (perform t s))).
Proof.
  revert st. induction tools as [|t rest IH]; intros st; simpl; [intros []|].
  destruct (name_of t) as [name|]; [|simpl; intros []].
  rewrite log_checking_spec.
  destruct (checking_error R keyword file_paths_to_check name);
    [intros []|].
  rewrite in_app_iff. intros [Hin|Hin].
  - exists t, st. split; [left; reflexivity|exact Hin].
  - destruct (snd (fst (perform t st))); [destruct Hin|].
    destruct (IH _ Hin) as (t' & s & Ht & Hr).
    exists t', s. split; [right; exact Ht|exact Hr].
Qed.

(** The plugins before [t] run to the end; then the announcement of [t]
    raises, or the generator of [t] ends in an exception: the exception
    leaves the loop. *)
Lemma run_tools_abort (before after : list T) (t : T) (name : string)
    (acc acc1 : Report * bool) st st1 :
  run_tools name_of keyword file_paths_to_check perform serialize before acc
    st = (Ok acc1, st1) ->
  name_of t = Some name ->
  let run := run_tools name_of keyword file_paths_to_check perform serialize
               (before ++ t :: after) acc st in
  (forall e, checking_error R keyword file_paths_to_check name = Some e ->
             run = (Raise e, st1))
  /\ (checking_error R keyword file_paths_to_check name = None ->
      forall e, snd (fst (perform t st1)) = Some e ->
                run = (Raise e, snd (perform t st1))).
Proof.
  revert acc st. induction before as [|b before IH]; intros acc st; simpl.
  - intros [= -> ->] Hname. rewrite Hname, log_checking_spec. split.
    + intros e ->. reflexivity.
    + intros -> e He.
      destruct (perform t st1) as [[ys err] st2]. simpl in *. subst err.
      reflexivity.
  - destruct (name_of b) as [bname|]; [|discriminate].
    rewrite log_checking_spec.
    destruct (checking_error R keyword file_paths_to_check bname);
      [discriminate|].
    destruct (perform b st) as [[ys [e'|]] st2]; [discriminate|].
    apply IH.
Qed.

End RunTools.





Lemma loops_of_results {T : Type} (name_of : T -> option string) keyword
    serialize (registry : dict T) selected file_paths perform_on st acc st' :
  loops_of name_of keyword serialize registry selected file_paths perform_on
    st = (Ok acc, st') ->
  snd acc = forallb valid
              (results_of name_of keyword registry selected file_paths
                 perform_on st).
Proof.
  unfold loops_of, results_of, bind.
  destruct (select_tools registry selected); [|discriminate].
  destruct (paths_to_check file_paths st) as [[ps|e] st0]; [|discriminate].
  intros H. apply run_tools_produced in H as [H _]. exact H.
Qed.

Lemma forallb_valid_false (results : list FileResult) :
  forallb valid results = false
  <-> exists r, In r results /\ valid r = false.
Proof.
  induction results as [|r rs IH]; simpl.
  - split; [discriminate|]. intros (r & [] & _).
  - rewrite andb_false_iff, IH. split.
    + intros [H|(r' & ? & ?)]; eauto.
    + intros (r' & [<-|?] & ?); eauto.
Qed.

Lemma forallb_valid_flip (results : list FileResult) (i : nat) r :
  results !! i = Some r ->
  (forallb valid (<[i := flip_valid r]> results)
   = negb (forallb valid results)
   <-> forallb valid (delete i results) = true).
Proof.
  intros Hi.
  rewrite insert_take_drop by (eapply lookup_lt_Some; eassumption).
  rewrite delete_take_drop.
  rewrite <- (take_drop_middle results i r Hi) at 3.
  rewrite !forallb_app. simpl.
  destruct (forallb valid (take i results)),
           (forallb valid (drop (S i) results)), (valid r);
    simpl; intuition congruence.
Qed.

Lemma loops_of_flag {T : Type} (name_of : T -> option string) keyword
    serialize (registry : dict T) selected file_paths perform_on st
    (report : Report) (was_successful : bool) st' :
  loops_of name_of keyword serialize registry selected file_paths perform_on
    st = (Ok (report, was_successful), st') ->
  let results :=
    results_of name_of keyword registry selected file_paths perform_on st in
  was_successful = forallb valid results
  /\ (was_successful = false <-> exists r, In r results /\ valid r = false)
  /\ (forall i r,
        results !! i = Some r ->
        (forallb valid (<[i := flip_valid r]> results) = negb was_successful
         <-> forallb valid (delete i results) = true)).
Proof.
  intros Hrun results.
  apply loops_of_results in Hrun. simpl in Hrun. fold results in Hrun.
  subst was_successful. split; [reflexivity|]. split.
  - apply forallb_valid_false.
  - intros i r. apply forallb_valid_flip.
Qed.

(** C1, as amended. When the loops of [main] run to their end, in the audit
    task and in the format task alike, the success flag is the conjunction
    of [valid] over every result the run produced: it is false exactly when
    one of them is invalid. Turning over the validity of one result turns
    the flag over exactly when all the other results are valid. *)
Theorem aggregate_success_flag :
  (forall (registry : dict (Auditor R)) (auditor : string)
          (file_paths : list string) (do_not_use_mise_exec : bool)
          st (report : Report) (was_successful : bool) st',
     audit_loops registry auditor file_paths do_not_use_mise_exec st
       = (Ok (report, was_successful), st') ->
     let results :=
       audit_results registry auditor file_paths do_not_use_mise_exec st in
     was_successful = forallb valid results
     /\ (was_successful = false <-> exists r, In r results /\ valid r = false)
     /\ (forall i r,
           results !! i = Some r ->
           (forallb valid (<[i := flip_valid r]> results)
            = negb was_successful
            <-> forallb valid (delete i results) = true)))
  /\
  (forall (registry : dict (Formatter R)) (formatter : string)
          (file_paths : list string) (do_not_use_mise_exec : bool)
          st (report : Report) (was_successful : bool) st',
     format_loops registry formatter file_paths do_not_use_mise_exec st
       = (Ok (report, was_successful), st') ->
     let results :=
       format_results registry formatter file_paths do_not_use_mise_exec st in
     was_successful = forallb valid results
     /\ (was_successful = false <-> exists r, In r results /\ valid r = false)
     /\ (forall i r,
           results !! i = Some r ->
           (forallb valid (<[i := flip_valid r]> results)
            = negb was_successful
            <-> forallb valid (delete i results) = true))).
Proof.
  split; intros registry selected file_paths flag st report ok st' Hrun.
  - exact (loops_of_flag _ _ _ _ _ _ _ _ _ _ _ Hrun).
  - exact (loops_of_flag _ _ _ _ _ _ _ _ _ _ _ Hrun).
Qed.

Lemma main_of_aborts (loops : M R (Report * bool)) (failure output : string)
    st :
  let out := main_of loops failure output st in
  (forall e st1,
     loops st = (Raise e, st1) ->
     out = ({| status := Raise e; report_file := None |}, st1)
     /\ exit_status (status (fst out)) <> 0)
  /\ (forall f,
        report_file (fst out) = Some f ->
        exists acc st1, loops st = (Ok acc, st1) /\ f = (output, fst acc)).
Proof.
  intros out. split.
  - intros e st1 H. subst out. unfold main_of. rewrite H. simpl.
    split; [reflexivity|discriminate].
  - intros f. subst out. unfold main_of.
    destruct (loops st) as [[acc|e] st1]; simpl; [|discriminate].
    unfold finish. destruct (open_w R output (world st1)) as [[e|] w];
      simpl; [discriminate|].
    intros [= <-]. eauto.
Qed.

(** C9. When the loops of [main] end in an exception, [main] ends in that
    exception: the process exits with a non-zero status and no report is
    written. A report is written only when the loops ran to their end. The
    loops end in an exception as soon as the project root cannot be found,
    the announcement of a plugin raises or the generator of one plugin ends
    in an exception, and a generator does as soon as the verb raises on one
    target (or one target is missing, see C4). *)
Theorem fatal_error_writes_no_report :
  (forall (registry : dict (Auditor R)) (auditor output : string)
          (file_paths : list string) (do_not_use_mise_exec : bool) st,
     let loops :=
       audit_loops registry auditor file_paths do_not_use_mise_exec in
     let out := audit_main registry auditor output file_paths
                  do_not_use_mise_exec st in
     (forall e st1,
        loops st = (Raise e, st1) ->
        out = ({| status := Raise e; report_file := None |}, st1)
        /\ exit_status (status (fst out)) <> 0)
     /\ (forall f,
           report_file (fst out) = Some f ->
           exists acc st1, loops st = (Ok acc, st1) /\ f = (output, fst acc)))
  /\
  (forall (registry : dict (Formatter R)) (formatter output : string)
          (file_paths : list string) (do_not_use_mise_exec : bool) st,
     let loops :=
       format_loops registry formatter file_paths do_not_use_mise_exec in
     let out := format_main registry formatter output file_paths
                  do_not_use_mise_exec st in
     (forall e st1,
        loops st = (Raise e, st1) ->
        out = ({| status := Raise e; report_file := None |}, st1)
        /\ exit_status (status (fst out)) <> 0)
     /\ (forall f,
           report_file (fst out) = Some f ->
           exists acc st1, loops st = (Ok acc, st1) /\ f = (output, fst acc)))
  /\
  (forall {T : Type} (name_of : T -> option string) (keyword : string)
          (serialize : FileResult -> Serialized)
          (registry : dict T) (selected : string) (file_paths : list string)
          (perform_on : list PathLike -> T -> State R -> Stream * State R)
          tools st,
     select_tools registry selected = Ok tools ->
     let loops := loops_of name_of keyword serialize registry selected
                    file_paths perform_on st in
     (forall e st0,
        paths_to_check file_paths st = (Raise e, st0) ->
        loops = (Raise e, st0))
     /\ (forall before t after file_paths_to_check acc1 st0 st1 name,
           tools = before ++ t :: after ->
           paths_to_check file_paths st = (Ok file_paths_to_check, st0) ->
           run_tools name_of keyword file_paths_to_check
             (perform_on file_paths_to_check) serialize
             before (∅, true) st0 = (Ok acc1, st1) ->
           name_of t = Some name ->
           (forall e,
              checking_error R keyword file_paths_to_check name = Some e ->
              loops = (Raise e, st1))
           /\ (checking_error R keyword file_paths_to_check name = None ->
               forall e,
                 snd (fst (perform_on file_paths_to_check t st1)) = Some e ->
                 loops
                 = (Raise e, snd (perform_on file_paths_to_check t st1)))))
  /\
  (forall new_error is_supported_filetype (operation_method : Verb (R:=R))
          command_prefix command_suffix before target after st e,
     let loop := perform_loop new_error is_supported_filetype
                   operation_method command_prefix command_suffix in
     snd (fst (loop before st)) = None ->
     path_exists R target = true ->
     is_supported_filetype target = true ->
     fst (operation_method target command_prefix command_suffix
            (snd (loop before st))) = Raise e ->
     snd (fst (loop (before ++ target :: after) st)) = Some e).
Proof.
  split; [|split; [|split]].
  - intros registry auditor output file_paths flag st. apply main_of_aborts.
  - intros registry formatter output file_paths flag st. apply main_of_aborts.
  - intros T name_of keyword serialize registry selected file_paths
           perform_on tools st Hsel loops. subst loops.
    unfold loops_of, bind. rewrite Hsel. split.
    + intros e st0 ->. reflexivity.
    + intros before t after ps acc1 st0 st1 name -> -> Hbefore Hname.
      exact (run_tools_abort name_of keyword ps (perform_on ps) serialize
               before after t name _ _ _ _ Hbefore Hname).
  - intros new_error is_sup method pre suf before target after s e loop
           Hnone Hex Hsup Hraise.
    subst loop. rewrite perform_loop_app.
    destruct (perform_loop new_error is_sup method pre suf before s)
      as [[ys err] s1]. simpl in *. subst err. simpl.
    rewrite Hex, Hsup. simpl.
    destruct (method target pre suf s1) as [[r|e'] s2]; simpl in *;
      congruence.
Qed.

Lemma AVAILABLE_FORMATTERS_black :
  AVAILABLE_FORMATTERS (R:=R) = Ok [("black", BlackFormatter)].
Proof. reflexivity. Qed.

Lemma AVAILABLE_AUDITORS_flake8 :
  AVAILABLE_AUDITORS (R:=R) = Ok [("flake8", FlakeEightAuditor)].
Proof. reflexivity. Qed.

(** C10. Every result [BlackFormatter.format] returns has [valid = True].
    [BlackFormatter] is the one formatter the registry holds, so a run of
    the format task that gets through its loops gets through them with the
    success flag set, and when it writes its report it ends without an
    exception: it either succeeds or is cut short by one. *)
Theorem format_never_reports_failure :
  (forall file_path command_prefix command_suffix st fr st',
     BlackFormatter_format (R:=R) file_path command_prefix command_suffix st
       = (Ok fr, st') ->
     valid fr = true)
  /\
  (forall (registry : dict (Formatter R)) (formatter output : string)
          (file_paths : list string) (do_not_use_mise_exec : bool) st,
     AVAILABLE_FORMATTERS = Ok registry ->
     (forall acc st1,
        format_loops registry formatter file_paths do_not_use_mise_exec st
          = (Ok acc, st1) ->
        snd acc = true)
     /\ (forall f,
           let out := fst (format_main registry formatter output file_paths
                             do_not_use_mise_exec st) in
           report_file out = Some f -> status out = Ok tt)).
Proof.
  split.
  - intros file_path pre suf st fr st' H.
    apply BlackFormatter_format_valid in H. tauto.
  - intros registry formatter output file_paths flag st Hreg.
    rewrite AVAILABLE_FORMATTERS_black in Hreg. injection Hreg as <-.
    assert (Hflag : forall acc st1,
      format_loops [("black", BlackFormatter)] formatter file_paths flag st
        = (Ok acc, st1) -> snd acc = true).
    { intros acc st1 H. apply loops_of_results in H. rewrite H.
      apply forallb_forall. intros r Hr. unfold results_of in Hr.
      destruct (select_tools _ formatter) as [tools|] eqn:Hsel; [|destruct Hr].
      destruct (paths_to_check file_paths st) as [[ps|] st0]; [|destruct Hr].
      apply produced_by in Hr as (cls & s & Hcls & Hr).
      assert (cls = BlackFormatter) as ->.
      { unfold select_tools in Hsel. simpl in Hsel.
        destruct (negb (String.eqb formatter "all")).
        - destruct (String.eqb formatter "black"); [|discriminate].
          injection Hsel as <-. destruct Hcls as [<-|[]]. reflexivity.
        - injection Hsel as <-. destruct Hcls as [<-|[]]. reflexivity. }
      unfold perform_formatter_operation, perform_operation in Hr.
      simpl in Hr.
      apply perform_loop_yielded in Hr as (p & s1 & s2 & _ & _ & _ & Hm).
      apply BlackFormatter_format_valid in Hm. tauto. }
    split; [exact Hflag|].
    intros f out. subst out. unfold format_main, main_of.
    destruct (format_loops _ formatter file_paths flag st)
      as [[acc|e] st1] eqn:Hrun; simpl; [|discriminate].
    unfold finish. destruct (open_w R output (world st1)) as [[e|] w]; simpl;
      [discriminate|].
    intros _. rewrite (Hflag acc st1 eq_refl). reflexivity.
Qed.

End Orchestration.

(* ================================================================== *)
(** * Discovery *)
(* ================================================================== *)

Section DiscoveryFacts.
Context {R : Runtime} {T : Type}
        (new_error : string -> option Z -> exn) (kind : string)
        (class_of : T -> string) (name_of : T -> option string).

Lemma dict_set_keys (k : string) (v : T) (d : dict T) (x : string) :
  In x (dict_keys (dict_set k v d)) -> x = k \/ In x (dict_keys d).
Proof.
  induction d as [|[k' v'] d IH]; simpl.
  - intros [<-|[]]. now left.
  - destruct (String.eqb_spec k k') as [->|Hne]; simpl.
    + intros [<-|?]; auto.
    + intros [<-|?]; auto. destruct (IH H); auto.
Qed.

Lemma register_checked (item : T) (found found' : dict T) :
  register (R:=R) new_error kind class_of name_of item found = Ok found' ->
  (forall x, In x (dict_keys found) -> name_checked (R:=R) x) ->
  forall x, In x (dict_keys found') -> name_checked (R:=R) x.
Proof.
  unfold register. destruct (name_of item) as [name|]; [|discriminate].
  destruct (String.eqb_spec (PyStr.lower (unicode R) name) "all");
    [discriminate|].
  destruct (PyStr.isalnum (unicode R) name) eqn:Ha; simpl; [|discriminate].
  destruct (PyStr.islower (unicode R) name) eqn:Hl; simpl; [|discriminate].
  intros [= <-] Hfound x Hx. apply dict_set_keys in Hx as [->|Hx]; auto.
  repeat split; assumption.
Qed.

(** Every key of a registry passed the three checks of the discovery. *)
Lemma discover_checked (items : list T) (registry : dict T) :
  discover (R:=R) new_error kind class_of name_of items = Ok registry ->
  forall x, In x (dict_keys registry) -> name_checked (R:=R) x.
Proof.
  unfold discover.
  assert (H : forall found,
             (forall x, In x (dict_keys found) -> name_checked (R:=R) x) ->
             discover_from (R:=R) new_error kind class_of name_of items found
               = Ok registry ->
             forall x, In x (dict_keys registry) -> name_checked (R:=R) x).
  { induction items as [|item rest IH]; intros found Hfound; simpl.
    - intros [= <-]. exact Hfound.
    - destruct (register _ _ _ _ item found) as [found'|e] eqn:Hreg;
        [|discriminate].
      apply IH. eapply register_checked; eassumption. }
  apply H. intros x [].
Qed.

Lemma utf8_decode_ascii (bs : list N) :
  forallb (fun b => b <? 128)%N bs = true -> PyStr.utf8_decode bs = Some bs.
Proof.
  induction bs as [|b bs IH]; simpl; [reflexivity|].
  intros H. apply andb_true_iff in H as [Hb Hbs].
  rewrite Hb, (IH Hbs). reflexivity.
Qed.

Lemma ascii_lower_alnum_list (l : list N) :
  forallb (fun b => b <? 128)%N l = true ->
  forallb (PyStr.cp_isalnum (unicode R)) l = true ->
  existsb (fun c => PyStr.cp_isupper (unicode R) c
                    || PyStr.cp_istitle (unicode R) c) l = false ->
  forallb (fun c => PyStr.ascii_lower c || PyStr.ascii_digit c) l = true.
Proof.
  induction l as [|c l IH]; simpl; [reflexivity|].
  intros Hascii Halnum Hnoupper.
  apply andb_true_iff in Hascii as [Hc Hl].
  apply andb_true_iff in Halnum as [Hca Hla].
  apply orb_false_iff in Hnoupper as [Hcu Hlu].
  rewrite (IH Hl Hla Hlu), andb_true_r.
  unfold PyStr.cp_isalnum, PyStr.cp_isalpha, PyStr.cp_isdecimal,
    PyStr.cp_isdigit, PyStr.cp_isnumeric, PyStr.cp_isupper,
    PyStr.cp_istitle in *.
  rewrite Hc in *.
  destruct (PyStr.ascii_upper c), (PyStr.ascii_lower c),
           (PyStr.ascii_digit c); simpl in *; congruence.
Qed.

(** On names written in ASCII the checks are the rule of the messages: a
    registered name is made of [a-z] and [0-9] and is not [all]. *)
Lemma ascii_name_checked (name : string) :
  forallb (fun b => b <? 128)%N (PyStr.bytes_of name) = true ->
  name_checked (R:=R) name ->
  PyStr.lower_ascii_alnum name = true /\ name <> "all".
Proof.
  intros Hascii (Hall & Halnum & Hlower). split.
  - unfold PyStr.isalnum, PyStr.islower, PyStr.codepoints in *.
    unfold PyStr.lower_ascii_alnum.
    rewrite (utf8_decode_ascii _ Hascii) in *.
    destruct (PyStr.bytes_of name) as [|b bs]; [discriminate|].
    apply andb_true_iff in Hlower as [Hnoupper _].
    apply negb_true_iff in Hnoupper.
    exact (ascii_lower_alnum_list (b :: bs) Hascii Halnum Hnoupper).
  - intros ->. apply Hall. reflexivity.
Qed.

End DiscoveryFacts.

(** C5. The discovery lets a name through that is not made of [a-z] and
    [0-9] only: [str.isalnum] and [str.islower] hold of the accented
    letter, so the class is registered under its name, next to the plugins
    of the repository. *)
Theorem discovery_accepts_non_ascii_name :
  PyStr.codepoints cafe = [99; 97; 102; 233]%N
  /\ PyStr.lower_ascii_alnum cafe = false
  /\ (exists registry,
        _discover_auditors [FlakeEightAuditor; CafeAuditor] = Ok registry
        /\ dict_keys registry = ["flake8"; cafe])
  /\ (exists registry,
        _discover_formatters [BlackFormatter; CafeFormatter] = Ok registry
        /\ dict_keys registry = ["black"; cafe]).
Proof.
  split; [reflexivity|]. split; [reflexivity|].
  split; eexists; split; reflexivity.
Qed.


(* ================================================================== *)
(** * Further properties: the command runner *)
(* ================================================================== *)

Lemma split_go_nonempty (cur s : string) : PyStr.split_go cur s <> [].
Proof.
  revert cur. induction s as [|c s IH]; intros cur; simpl; [discriminate|].
  destruct (Ascii.eqb c " "); [discriminate|apply IH].
Qed.

Lemma join_cons (sep x : string) (l : list string) :
  l <> [] -> PyStr.join sep (x :: l) = x +:+ sep +:+ PyStr.join sep l.
Proof. destruct l; [congruence|reflexivity]. Qed.

Lemma append_cons c (a b : string) : String c a +:+ b = String c (a +:+ b).
Proof. reflexivity. Qed.

Lemma append_assoc (a b c : string) : (a +:+ b) +:+ c = a +:+ (b +:+ c).
Proof.
  induction a as [|x a IH]; [reflexivity|].
  rewrite !append_cons, IH. reflexivity.
Qed.

Lemma append_empty_r (a : string) : a +:+ "" = a.
Proof.
  induction a as [|x a IH]; [reflexivity|]. rewrite append_cons, IH.
  reflexivity.
Qed.

Lemma join_split_go (cur s : string) :
  PyStr.join " " (PyStr.split_go cur s) = cur +:+ s.
Proof.
  revert cur. induction s as [|c s IH]; intros cur; simpl.
  - rewrite append_empty_r. reflexivity.
  - destruct (Ascii.eqb_spec c " ") as [->|Hc].
    + rewrite join_cons by apply split_go_nonempty. rewrite IH. reflexivity.
    + rewrite IH, append_assoc. reflexivity.
Qed.

Lemma split_go_word (cur t rest : string) :
  has_space t = false ->
  PyStr.split_go cur (t +:+ rest) = PyStr.split_go (cur +:+ t) rest.
Proof.
  revert cur. induction t as [|c t IH]; intros cur Ht.
  - rewrite append_empty_r. reflexivity.
  - simpl in Ht. apply orb_false_iff in Ht as [Hc Ht].
    rewrite append_cons. simpl. rewrite Hc, (IH _ Ht), append_assoc.
    reflexivity.
Qed.

Lemma split_go_join (cur t : string) (tokens : list string) :
  forallb (fun t => negb (has_space t)) (t :: tokens) = true ->
  PyStr.split_go cur (PyStr.join " " (t :: tokens)) = (cur +:+ t) :: tokens.
Proof.
  revert cur t. induction tokens as [|u tokens IH]; intros cur t H.
  - simpl in *. rewrite andb_true_r in H. apply negb_true_iff in H.
    rewrite <- (append_empty_r t) at 1. rewrite (split_go_word _ _ _ H).
    reflexivity.
  - change (forallb (fun t => negb (has_space t)) (t :: u :: tokens))
      with (negb (has_space t)
            && forallb (fun t => negb (has_space t)) (u :: tokens)) in H.
    apply andb_true_iff in H as [Ht Hrest]. apply negb_true_iff in Ht.
    rewrite join_cons by discriminate.
    rewrite (split_go_word _ _ _ Ht).
    change (" " +:+ PyStr.join " " (u :: tokens))
      with (String " " (PyStr.join " " (u :: tokens))).
    cbn [PyStr.split_go]. rewrite Ascii.eqb_refl.
    rewrite (IH "" u Hrest). reflexivity.
Qed.

(** A command given as one string is cut at every single space, so that
    in a shell, with no prefix and no suffix, the line that runs is the
    string as it was given, whatever it is; the token list is never empty.
    And the tokens of a command, none of them with a space in it, come back
    from the line they are joined into. *)
Theorem command_string_round_trip :
  (forall s : string,
     Command (CmdStr s) <> []
     /\ construct_command (Command (CmdStr s)) true None None = ShellLine s)
  /\ (forall (t : string) (tokens : list string),
        forallb (fun t => negb (has_space t)) (t :: tokens) = true ->
        Command (CmdStr (PyStr.join " " (t :: tokens))) = t :: tokens).
Proof.
  split.
  - intros s. split; [apply split_go_nonempty|].
    unfold construct_command, Command, PyStr.split_space. simpl.
    rewrite app_nil_r, join_split_go. reflexivity.
  - intros t tokens H. unfold Command, PyStr.split_space.
    rewrite (split_go_join "" t tokens H). reflexivity.
Qed.

Section MoreCommandRunner.
Context {R : Runtime}.
Implicit Types (st : State R) (self : list string).

Lemma decode_stream_ok (b : option string) (o : option string) :
  decode_stream b = Ok o ->
  o = match b with
      | Some s => if String.eqb s "" then None else Some s
      | None => None
      end.
Proof.
  unfold decode_stream. destruct b as [[|c s]|]; cbv beta iota.
  - intros [= <-]. reflexivity.
  - destruct (PyStr.utf8_decode _); [|discriminate].
    intros [= <-]. reflexivity.
  - intros [= <-]. reflexivity.
Qed.


(** What a [CommandResult] says of the two streams: [stdout] is the bytes
    the process wrote, and [None] both when nothing was captured and when
    the process wrote nothing; [captured_output] alone tells the two
    apart. The same holds of [stderr]. The other fields are the arguments
    of the run. *)
Theorem command_result_streams :
  forall self (check capture use_shell : bool)
         (pre suf : option (list string)) st r,
    fst (Command_run self check capture use_shell pre suf st) = Ok r ->
    exists rc out err,
      fst (os_spawn R (argv_of self use_shell pre suf)
             (world st)) = Exited rc out err
      /\ returncode r = Some rc
      /\ stdout r = (if capture && negb (String.eqb out "")
                     then Some out else None)
      /\ stderr r = (if capture && negb (String.eqb err "")
                     then Some err else None)
      /\ captured_output r = capture
      /\ used_shell r = use_shell
      /\ original_command r = self
      /\ command_prefix r = pre
      /\ command_suffix r = suf.
Proof.
  intros self check capture use_shell pre suf st r Hr.
  rewrite Command_run_spec in Hr.
  destruct (running_error R self check capture use_shell pre suf);
    [discriminate|].
  destruct (fst (os_spawn R _ (world st))) as [e|rc out err]; [discriminate|].
  exists rc, out, err. split; [reflexivity|].
  destruct (check && negb (rc =? 0)); [discriminate|].
  destruct (decode_stream (if capture then Some out else None)) as [o|]
    eqn:Ho; [|discriminate].
  destruct (decode_stream (if capture then Some err else None)) as [e|]
    eqn:He; [|discriminate].
  injection Hr as <-. simpl.
  apply decode_stream_ok in Ho, He. subst o e.
  destruct capture; simpl;
    destruct (String.eqb out ""), (String.eqb err ""); repeat split.
Qed.



End MoreCommandRunner.

(* ================================================================== *)
(** * Further properties: the two plugins *)
(* ================================================================== *)

Section MorePlugins.
Context {R : Runtime}.
Implicit Types (st : State R) (file_path : Path).




(** An audit that returns has logged its record and started its process,
    and nothing else. *)
Lemma FlakeEightAuditor_audit_state file_path pre suf st r st' :
  FlakeEightAuditor_audit file_path pre suf st = (Ok r, st') ->
  spawned st' = spawned st
                ++ [argv_of ["flake8"] true pre
                      (Some (file_path :: or_empty suf))]
  /\ warnings st' = warnings st.
Proof.
  unfold FlakeEightAuditor_audit, bind.
  destruct (Command_run _ _ _ _ _ _ st) as [[r0|e] st1] eqn:Hrun;
    [|discriminate].
  apply Command_run_returns in Hrun as (_ & Hs & Hw).
  destruct (returncode r0) as [[|[q|q|]|q]|]; simpl;
    try discriminate; intros [= _ <-]; split; assumption.
Qed.



End MorePlugins.

(* ================================================================== *)
(** * Further properties: the orchestrator *)
(* ================================================================== *)

Section MoreOrchestration.
Context {R : Runtime}.
Implicit Types (st : State R).

Lemma resolve_list_filter (l : list PathLike) :
  resolve_list (R:=R) (List.filter is_path_like l) = resolve_list (R:=R) l.
Proof.
  induction l as [|[s|p|p|] l IH]; simpl; congruence.
Qed.

Lemma resolve_list_app (l1 l2 : list PathLike) :
  resolve_list (R:=R) (l1 ++ l2)
  = resolve_list (R:=R) l1 ++ resolve_list (R:=R) l2.
Proof.
  induction l1 as [|[s|p|p|] l1 IH]; simpl; congruence.
Qed.

Lemma resolve_list_none (l : list PathLike) :
  forallb (fun x => negb (is_path_like x)) l = true ->
  resolve_list (R:=R) l = [].
Proof.
  induction l as [|[s|p|p|] l IH]; simpl; try discriminate; auto.
Qed.

(** The [file_paths] argument. One [Path] or [str] alone is the list of
    it. Another object [Path()] takes (a [PurePath], an [os.PathLike]) is,
    alone, the target it stands for, and is dropped when it comes in a
    list; a value [Path()] refuses, alone, raises [TypeError] before a
    target is looked at. In a list, what is neither a [Path] nor a [str] is
    dropped without a word: a list of such values runs to its end with no
    result. *)
Theorem file_paths_normalisation :
  forall new_error is_supported_filetype (operation_method : Verb (R:=R))
         (command_prefix command_suffix : option (list string)) st,
    let perform :=
      perform_operation new_error is_supported_filetype operation_method
        command_prefix command_suffix in
    (forall x, is_path_like x = true ->
               perform (Single x) st = perform (Several [x]) st)
    /\ (forall p,
          perform (Single (PyPathLikeArg p)) st
          = perform (Several [PyPathArg p]) st
          /\ perform (Several [PyPathLikeArg p]) st = (([], None), st))
    /\ (exists msg, perform (Single PyOtherArg) st
                    = (([], Some (TypeError msg)), st))
    /\ (forall l, perform (Several l) st
                  = perform (Several (List.filter is_path_like l)) st)
    /\ (forall l, forallb (fun x => negb (is_path_like x)) l = true ->
                  perform (Several l) st = (([], None), st)).
Proof.
  intros new_error is_sup method pre suf st perform. subst perform.
  unfold perform_operation. split; [|split; [|split; [|split]]].
  - intros [s|p|p|] Hx; [reflexivity|reflexivity|discriminate|discriminate].
  - intros p. split; reflexivity.
  - eexists. reflexivity.
  - intros l. simpl. rewrite resolve_list_filter. reflexivity.
  - intros l Hl. simpl. rewrite (resolve_list_none l Hl). reflexivity.
Qed.

(** Targets are handled one after the other: the run over two lists put
    end to end is the run over the first followed, unless that one ended in
    an exception, by the run over the second, from the state the first
    left. What is yielded for the first list is not changed by what comes
    after it. *)
Theorem perform_in_sequence :
  (forall (cls : Auditor R) operation (l1 l2 : list PathLike)
          (command_prefix command_suffix : option (list string)) st,
     let run l := perform_auditor_operation cls operation (Several l)
                    command_prefix command_suffix in
     run (l1 ++ l2) st = then_stream (run l1 st) (run l2)
     /\ exists more,
          fst (fst (run (l1 ++ l2) st)) = fst (fst (run l1 st)) ++ more)
  /\
  (forall (cls : Formatter R) operation (l1 l2 : list PathLike)
          (command_prefix command_suffix : option (list string)) st,
     let run l := perform_formatter_operation cls operation (Several l)
                    command_prefix command_suffix in
     run (l1 ++ l2) st = then_stream (run l1 st) (run l2)
     /\ exists more,
          fst (fst (run (l1 ++ l2) st)) = fst (fst (run l1 st)) ++ more).
Proof.
  assert (Hmore : forall (a : Stream * State R) k,
            exists more,
              fst (fst (then_stream a k)) = fst (fst a) ++ more).
  { intros [[ys [e|]] st1] k; simpl.
    - exists []. rewrite app_nil_r. reflexivity.
    - eexists. reflexivity. }
  split; intros cls operation l1 l2 pre suf st run; subst run.
  - unfold perform_auditor_operation, perform_operation. simpl.
    rewrite resolve_list_app, perform_loop_app. split; [reflexivity|].
    apply Hmore.
  - unfold perform_formatter_operation, perform_operation. simpl.
    rewrite resolve_list_app, perform_loop_app. split; [reflexivity|].
    apply Hmore.
Qed.

Section Trace.
Context (new_error : string -> option Z -> exn)
        (is_supported_filetype : Path -> bool)
        (operation_method : Verb (R:=R))
        (command_prefix command_suffix : option (list string))
        (trace : FileResult -> list (list string)).

Hypothesis verb_trace :
  forall p s r s',
    operation_method p command_prefix command_suffix s = (Ok r, s') ->
    path r = p /\ spawned s' = spawned s ++ trace r
    /\ warnings s' = warnings s.

(** A run that ends without an exception, read off its targets. *)
Lemma perform_loop_trace (paths : list Path) st yielded st' :
  perform_loop new_error is_supported_filetype operation_method
    command_prefix command_suffix paths st = ((yielded, None), st') ->
  forallb (path_exists R) paths = true
  /\ map path yielded = List.filter is_supported_filetype paths
  /\ spawned st' = spawned st ++ flat_map trace yielded
  /\ warnings st'
     = warnings st
       ++ map skip_warning
            (List.filter (fun p => negb (is_supported_filetype p)) paths).
Proof.
  revert st yielded. induction paths as [|p paths IH]; intros st ys; simpl.
  - intros [= <- <-]. rewrite !app_nil_r. repeat split.
  - destruct (path_exists R p); simpl; [|discriminate].
    destruct (is_supported_filetype p) eqn:Hsup; simpl.
    + destruct (operation_method p command_prefix command_suffix st)
        as [[r|e] st1] eqn:Hm; [|discriminate].
      destruct (perform_loop _ _ _ _ _ paths st1) as [[ys' e'] st2] eqn:Hl.
      unfold yield_first. simpl. intros [= <- -> <-].
      destruct (IH _ _ Hl) as (Hex & Hp & Hs & Hw).
      destruct (verb_trace _ _ _ _ Hm) as (Hr & Hs1 & Hw1).
      split; [exact Hex|]. split; [simpl; congruence|]. split.
      * rewrite Hs, Hs1, <- app_assoc. reflexivity.
      * rewrite Hw, Hw1. reflexivity.
    + intros Hl. destruct (IH _ _ Hl) as (Hex & Hp & Hs & Hw).
      split; [exact Hex|]. split; [exact Hp|]. split; [exact Hs|].
      rewrite Hw. simpl. rewrite <- app_assoc. reflexivity.
Qed.

End Trace.

Lemma flat_map_singleton {A B} (f : A -> B) (l : list A) :
  flat_map (fun x => [f x]) l = map f l.
Proof. induction l as [|x l IH]; simpl; congruence. Qed.

(** A run of [flake8], or of [black --check], that ends without an
    exception. Every target exists; the results are those of the targets
    the plugin supports, one each and in their order; the processes
    started are the commands on these targets, one each and in the same
    order, through the shell; and the warnings are those for the other
    targets. *)
Theorem check_run_trace :
  forall (file_paths : list PathLike)
         (command_prefix command_suffix : option (list string))
         st yielded st',
    let targets := resolve_list (R:=R) file_paths in
    let supported := List.filter (py_is_supported_filetype (R:=R)) targets in
    let skipped :=
      List.filter (fun p => negb (py_is_supported_filetype (R:=R) p))
        targets in
    let line base p :=
      ["/bin/sh"; "-c";
       PyStr.join " " (or_empty command_prefix ++ base
                       ++ p :: or_empty command_suffix)] in
    (perform_auditor_operation FlakeEightAuditor AUDIT (Several file_paths)
       command_prefix command_suffix st = ((yielded, None), st') ->
     forallb (path_exists R) targets = true
     /\ map path yielded = supported
     /\ spawned st' = spawned st ++ map (line ["flake8"]) supported
     /\ warnings st' = warnings st ++ map skip_warning skipped)
    /\
    (perform_formatter_operation BlackFormatter CHECK (Several file_paths)
       command_prefix command_suffix st = ((yielded, None), st') ->
     forallb (path_exists R) targets = true
     /\ map path yielded = supported
     /\ spawned st' = spawned st ++ map (line ["black"; "--check"]) supported
     /\ warnings st' = warnings st ++ map skip_warning skipped).
Proof.
  intros file_paths pre suf st ys st' targets supported skipped line.
  split; intros Hrun.
  - unfold perform_auditor_operation, perform_operation in Hrun.
    simpl in Hrun.
    apply (perform_loop_trace _ _ _ _ _
             (fun r => [line ["flake8"] (path r)])) in Hrun.
    + destruct Hrun as (Hex & Hp & Hs & Hw).
      split; [exact Hex|]. split; [exact Hp|]. split; [|exact Hw].
      rewrite Hs, (flat_map_singleton (fun r => line ["flake8"] (path r))).
      rewrite <- (map_map path (line ["flake8"])), Hp. reflexivity.
    + intros p s r s' Hm.
      pose proof (FlakeEightAuditor_audit_state p pre suf s r s' Hm)
        as [Hs Hw].
      apply FlakeEightAuditor_audit_path in Hm. subst p.
      split; [reflexivity|]. split; [exact Hs|exact Hw].
  - unfold perform_formatter_operation, perform_operation in Hrun.
    simpl in Hrun.
    apply (perform_loop_trace _ _ _ _ _
             (fun r => [line ["black"; "--check"] (path r)])) in Hrun.
    + destruct Hrun as (Hex & Hp & Hs & Hw).
      split; [exact Hex|]. split; [exact Hp|]. split; [|exact Hw].
      rewrite Hs, (flat_map_singleton
                     (fun r => line ["black"; "--check"] (path r))).
      rewrite <- (map_map path (line ["black"; "--check"])), Hp.
      reflexivity.
    + intros p s r s' Hm.
      pose proof (BlackFormatter_check_state p pre suf s r s' Hm) as [Hs Hw].
      assert (path r = p) as <-.
      { unfold BlackFormatter_check, bind in Hm.
        destruct (Command_run _ _ _ _ _ _ s) as [[r0|e] s1]; [|discriminate].
        destruct (returncode r0) as [[|[q|q|]|q]|]; simpl in Hm;
          try discriminate; injection Hm as <- _; reflexivity. }
      split; [reflexivity|]. split; [exact Hs|exact Hw].
Qed.

Lemma BlackFormatter_format_trace file_path pre suf st r st' :
  BlackFormatter_format (R:=R) file_path pre suf st = (Ok r, st') ->
  path r = file_path
  /\ spawned st'
     = spawned st
       ++ argv_of ["black"; "--check"] true pre
            (Some (path r :: or_empty suf))
          :: match formatted r with
             | Some true =>
               [argv_of ["black"] true pre (Some (path r :: or_empty suf))]
             | _ => []
             end
  /\ warnings st' = warnings st.
Proof.
  rewrite BlackFormatter_format_cases.
  destruct (BlackFormatter_check file_path pre suf st) as [[c|e] st1] eqn:Hc;
    simpl; [|discriminate].
  apply BlackFormatter_check_state in Hc as [Hs Hw].
  destruct (valid c).
  - intros [= <- <-]. simpl. split; [reflexivity|]. split; assumption.
  - destruct (Command_run _ _ _ _ _ _ st1) as [[r0|e] st2] eqn:Hran;
      cbn [fst snd]; [|discriminate].
    apply Command_run_returns in Hran as (_ & Hs2 & Hw2).
    destruct (bool_decide (returncode r0 = Some 0)); [|discriminate].
    intros [= <- <-]. simpl. split; [reflexivity|]. split.
    + rewrite Hs2, Hs, <- app_assoc. reflexivity.
    + rewrite Hw2, Hw. reflexivity.
Qed.

Lemma length_flat_map {A B} (f : A -> list B) (l : list A) :
  length (flat_map f l) = list_sum (map (fun x => length (f x)) l).
Proof.
  induction l as [|x l IH]; simpl; [reflexivity|].
  rewrite length_app, IH. reflexivity.
Qed.

(** A run of the format verb of [black] that ends without an exception.
    The results are those of the supported targets, in order; each of them
    has cost the process of the check and, when it says [formatted], the
    process of the formatting after it, and nothing else was started: the
    processes of a run are as many as its results, plus one for each file
    it rewrote. *)
Theorem format_run_trace :
  forall (file_paths : list PathLike)
         (command_prefix command_suffix : option (list string))
         st yielded st',
    let targets := resolve_list (R:=R) file_paths in
    let line base p :=
      ["/bin/sh"; "-c";
       PyStr.join " " (or_empty command_prefix ++ base
                       ++ p :: or_empty command_suffix)] in
    let cost r :=
      line ["black"; "--check"] (path r)
      :: match formatted r with
         | Some true => [line ["black"] (path r)]
         | _ => []
         end in
    perform_formatter_operation BlackFormatter FORMAT (Several file_paths)
      command_prefix command_suffix st = ((yielded, None), st') ->
    map path yielded
    = List.filter (py_is_supported_filetype (R:=R)) targets
    /\ spawned st' = spawned st ++ flat_map cost yielded
    /\ length (spawned st')
       = (length (spawned st) + list_sum (map format_cost yielded))%nat
    /\ warnings st'
       = warnings st
         ++ map skip_warning
              (List.filter (fun p => negb (py_is_supported_filetype (R:=R) p))
                 targets).
Proof.
  intros file_paths pre suf st ys st' targets line cost Hrun.
  unfold perform_formatter_operation, perform_operation in Hrun.
  simpl in Hrun.
  apply (perform_loop_trace _ _ _ _ _ cost) in Hrun.
  - destruct Hrun as (_ & Hp & Hs & Hw).
    split; [exact Hp|]. split; [exact Hs|]. split; [|exact Hw].
    rewrite Hs, length_app, length_flat_map. f_equal. f_equal.
    apply map_ext. intros r. unfold cost, format_cost.
    destruct (formatted r) as [[|]|]; reflexivity.
  - intros p s r s' Hm. exact (BlackFormatter_format_trace _ _ _ _ _ _ Hm).
Qed.

End MoreOrchestration.

(* ================================================================== *)
(** * Further properties: discovery and the choice of the plugins *)
(* ================================================================== *)

Section DictFacts.
Context {V : Type}.
Implicit Types (d : dict V) (k : string) (v : V).

Lemma dict_get_set_eq k v d : dict_get k (dict_set k v d) = Some v.
Proof.
  induction d as [|[k' v'] d IH]; simpl.
  - rewrite String.eqb_refl. reflexivity.
  - destruct (String.eqb k k') eqn:E; simpl.
    + rewrite String.eqb_refl. reflexivity.
    + rewrite E. exact IH.
Qed.

Lemma dict_get_set_ne k k' v d :
  k <> k' -> dict_get k' (dict_set k v d) = dict_get k' d.
Proof.
  intros Hne. induction d as [|[k0 v0] d IH]; simpl.
  - destruct (String.eqb_spec k' k); [congruence|reflexivity].
  - destruct (String.eqb_spec k k0) as [->|Hk]; simpl.
    + destruct (String.eqb_spec k' k0); [congruence|reflexivity].
    + destruct (String.eqb_spec k' k0); [reflexivity|exact IH].
Qed.

Lemma dict_set_keys_old k v d :
  In k (dict_keys d) -> dict_keys (dict_set k v d) = dict_keys d.
Proof.
  induction d as [|[k0 v0] d IH]; simpl; [tauto|].
  destruct (String.eqb_spec k k0) as [->|Hk]; simpl; [reflexivity|].
  intros [H|H]; [congruence|]. rewrite (IH H). reflexivity.
Qed.

Lemma dict_set_keys_new k v d :
  ~ In k (dict_keys d) -> dict_keys (dict_set k v d) = dict_keys d ++ [k].
Proof.
  induction d as [|[k0 v0] d IH]; simpl; [reflexivity|].
  intros H. destruct (String.eqb_spec k k0) as [->|Hk]; simpl.
  - exfalso. apply H. now left.
  - rewrite IH; [reflexivity|]. intros Hin. apply H. now right.
Qed.

Lemma dict_set_NoDup k v d :
  NoDup (dict_keys d) -> NoDup (dict_keys (dict_set k v d)).
Proof.
  intros Hd. destruct (in_dec String.string_dec k (dict_keys d)) as [Hin|Hin].
  - rewrite dict_set_keys_old by exact Hin. exact Hd.
  - rewrite dict_set_keys_new by exact Hin.
    apply NoDup_app. split; [exact Hd|]. split.
    + intros x Hx Hk. apply list_elem_of_singleton in Hk. subst x.
      apply Hin. apply list_elem_of_In. exact Hx.
    + apply NoDup_singleton.
Qed.

Lemma dict_set_entries k v d k1 v1 :
  In (k1, v1) (dict_set k v d) -> (k1, v1) = (k, v) \/ In (k1, v1) d.
Proof.
  induction d as [|[k0 v0] d IH]; simpl.
  - intros [H|[]]. left. congruence.
  - destruct (String.eqb_spec k k0) as [->|Hk]; simpl.
    + intros [H|H]; [left; congruence|right; right; exact H].
    + intros [H|H]; [right; left; exact H|].
      destruct (IH H); [left|right; right]; assumption.
Qed.

Lemma dict_get_keys k d : In k (dict_keys d) -> is_Some (dict_get k d).
Proof.
  induction d as [|[k0 v0] d IH]; simpl; [tauto|].
  destruct (String.eqb_spec k k0) as [->|Hk]; [eauto|].
  intros [H|H]; [congruence|exact (IH H)].
Qed.

Lemma dict_get_not_key k d : ~ In k (dict_keys d) -> dict_get k d = None.
Proof.
  induction d as [|[k0 v0] d IH]; simpl; [reflexivity|].
  intros H. destruct (String.eqb_spec k k0) as [->|Hk].
  - exfalso. apply H. now left.
  - apply IH. intros Hin. apply H. now right.
Qed.

Lemma dict_get_entry k v d : dict_get k d = Some v -> In (k, v) d.
Proof.
  induction d as [|[k0 v0] d IH]; simpl; [discriminate|].
  destruct (String.eqb_spec k k0) as [->|Hk].
  - intros [= ->]. now left.
  - intros H. right. exact (IH H).
Qed.

End DictFacts.

Section MoreDiscovery.
Context {R : Runtime} {T : Type}
        (new_error : string -> option Z -> exn) (kind : string)
        (class_of : T -> string) (name_of : T -> option string).

Lemma register_ok (item : T) (found found' : dict T) :
  register (R:=R) new_error kind class_of name_of item found = Ok found' ->
  exists name,
    name_of item = Some name
    /\ name_checked (R:=R) name
    /\ found' = dict_set name item found.
Proof.
  unfold register. destruct (name_of item) as [name|]; [|discriminate].
  destruct (String.eqb_spec (PyStr.lower (unicode R) name) "all");
    [discriminate|].
  destruct (PyStr.isalnum (unicode R) name) eqn:Ha; simpl; [|discriminate].
  destruct (PyStr.islower (unicode R) name) eqn:Hl; simpl; [|discriminate].
  intros [= <-]. exists name. repeat split; assumption.
Qed.

(** What [register] answers does not depend on the classes met before. *)
Lemma register_any_found (item : T) (found1 found2 : dict T) :
  match register (R:=R) new_error kind class_of name_of item found1 with
  | Ok _ =>
    exists name,
      name_of item = Some name
      /\ register (R:=R) new_error kind class_of name_of item found2
         = Ok (dict_set name item found2)
  | Raise e =>
    register (R:=R) new_error kind class_of name_of item found2 = Raise e
  end.
Proof.
  unfold register. destruct (name_of item) as [name|]; [|reflexivity].
  destruct (String.eqb (PyStr.lower (unicode R) name) "all"); [reflexivity|].
  destruct (negb (PyStr.isalnum (unicode R) name)
            || negb (PyStr.islower (unicode R) name)); [reflexivity|].
  exists name. split; reflexivity.
Qed.

Lemma lower_all : PyStr.lower (unicode R) "all" = "all".
Proof. reflexivity. Qed.

Lemma find_app {A} (f : A -> bool) (l1 l2 : list A) :
  find f (l1 ++ l2)
  = match find f l1 with Some x => Some x | None => find f l2 end.
Proof.
  induction l1 as [|x l1 IH]; simpl; [reflexivity|].
  destruct (f x); [reflexivity|exact IH].
Qed.

Lemma discover_from_NoDup (items : list T) (found registry : dict T) :
  discover_from (R:=R) new_error kind class_of name_of items found
    = Ok registry ->
  NoDup (dict_keys found) -> NoDup (dict_keys registry).
Proof.
  revert found. induction items as [|item rest IH]; intros found; simpl.
  - intros [= <-]. trivial.
  - destruct (register _ _ _ _ item found) as [found'|e] eqn:Hreg;
      [|discriminate].
    apply register_ok in Hreg as (name & _ & _ & ->).
    intros H Hnd. apply (IH _ H). apply dict_set_NoDup. exact Hnd.
Qed.

Lemma discover_from_entries (items : list T) (found registry : dict T) :
  discover_from (R:=R) new_error kind class_of name_of items found
    = Ok registry ->
  forall k v, In (k, v) registry ->
              In (k, v) found \/ (name_of v = Some k /\ In v items).
Proof.
  revert found. induction items as [|item rest IH]; intros found; simpl.
  - intros [= <-] k v H. now left.
  - destruct (register _ _ _ _ item found) as [found'|e] eqn:Hreg;
      [|discriminate].
    apply register_ok in Hreg as (name & Hname & _ & ->).
    intros H k v Hin. destruct (IH _ H k v Hin) as [Hset|[Hn Hv]].
    + apply dict_set_entries in Hset as [[= -> ->]|Hf].
      * right. split; [exact Hname|now left].
      * now left.
    + right. split; [exact Hn|now right].
Qed.

Lemma discover_from_keeps (items : list T) (found registry : dict T) :
  discover_from (R:=R) new_error kind class_of name_of items found
    = Ok registry ->
  forall k, In k (dict_keys found) -> In k (dict_keys registry).
Proof.
  revert found. induction items as [|item rest IH]; intros found; simpl.
  - intros [= <-] k H. exact H.
  - destruct (register _ _ _ _ item found) as [found'|e] eqn:Hreg;
      [|discriminate].
    apply register_ok in Hreg as (name & _ & _ & ->).
    intros H k Hk. apply (IH _ H).
    destruct (in_dec String.string_dec name (dict_keys found)) as [Hin|Hin].
    + rewrite dict_set_keys_old by exact Hin. exact Hk.
    + rewrite dict_set_keys_new by exact Hin. apply in_or_app. now left.
Qed.

Lemma dict_set_key_in {V} (k : string) (v : V) (d : dict V) :
  In k (dict_keys (dict_set k v d)).
Proof.
  destruct (in_dec String.string_dec k (dict_keys d)) as [Hin|Hin].
  - rewrite dict_set_keys_old by exact Hin. exact Hin.
  - rewrite dict_set_keys_new by exact Hin. apply in_or_app. right. now left.
Qed.

Lemma discover_from_names (items : list T) (found registry : dict T) :
  discover_from (R:=R) new_error kind class_of name_of items found
    = Ok registry ->
  forall item, In item items ->
               exists k, name_of item = Some k /\ In k (dict_keys registry).
Proof.
  revert found. induction items as [|item rest IH]; intros found; simpl.
  - intros _ item [].
  - destruct (register _ _ _ _ item found) as [found'|e] eqn:Hreg;
      [|discriminate].
    apply register_ok in Hreg as (name & Hname & _ & ->).
    intros H item' [<-|Hin].
    + exists name. split; [exact Hname|].
      apply (discover_from_keeps _ _ _ H). apply dict_set_key_in.
    + exact (IH _ H item' Hin).
Qed.

Lemma discover_from_get (items : list T) (found registry : dict T) n :
  discover_from (R:=R) new_error kind class_of name_of items found
    = Ok registry ->
  dict_get n registry
  = match find (named name_of n) (rev items) with
    | Some v => Some v
    | None => dict_get n found
    end.
Proof.
  revert found. induction items as [|item rest IH]; intros found; simpl.
  - intros [= <-]. reflexivity.
  - destruct (register _ _ _ _ item found) as [found'|e] eqn:Hreg;
      [|discriminate].
    apply register_ok in Hreg as (name & Hname & _ & ->).
    intros H. rewrite (IH _ H), find_app.
    destruct (find (named name_of n) (rev rest)); [reflexivity|].
    simpl. unfold named at 1. rewrite Hname.
    destruct (String.eqb_spec name n) as [->|Hne].
    + apply dict_get_set_eq.
    + apply dict_get_set_ne. exact Hne.
Qed.

Lemma all_not_checked : ~ name_checked (R:=R) "all".
Proof. intros (H & _). apply H. reflexivity. Qed.

(** The registry a discovery returns. No name is in it twice and [all] is
    not in it; every entry is a class of the package under its own name;
    and every class of the package has its name in it. *)
Theorem registry_well_formed :
  forall (items : list T) (registry : dict T),
    discover (R:=R) new_error kind class_of name_of items = Ok registry ->
    NoDup (dict_keys registry)
    /\ ~ In "all" (dict_keys registry)
    /\ (forall k v, In (k, v) registry -> name_of v = Some k /\ In v items)
    /\ (forall item, In item items ->
          exists k, name_of item = Some k /\ In k (dict_keys registry)).
Proof.
  intros items registry H. split; [|split; [|split]].
  - apply (discover_from_NoDup _ _ _ H). apply NoDup_nil_2.
  - intros Hall. exact (all_not_checked (discover_checked _ _ _ _ _ _ H _ Hall)).
  - intros k v Hin.
    destruct (discover_from_entries _ _ _ H k v Hin) as [[]|Hkv]. exact Hkv.
  - exact (discover_from_names _ _ _ H).
Qed.

(** Two classes of one name: the one met last is the one the name gives,
    whatever the number of classes of that name. A name no class has gives
    nothing. *)
Theorem last_class_wins :
  forall (items : list T) (registry : dict T) (n : string),
    discover (R:=R) new_error kind class_of name_of items = Ok registry ->
    dict_get n registry = find (named name_of n) (rev items).
Proof.
  intros items registry n H.
  rewrite (discover_from_get _ _ _ n H).
  destruct (find _ _); reflexivity.
Qed.

End MoreDiscovery.

Section Selection.
Context {R : Runtime} {T : Type}
        (new_error : string -> option Z -> exn) (kind : string)
        (class_of : T -> string) (name_of : T -> option string).

Lemma register_of_checked (item : T) (name : string) (found : dict T) :
  name_of item = Some name ->
  name_checked (R:=R) name ->
  register (R:=R) new_error kind class_of name_of item found
  = Ok (dict_set name item found).
Proof.
  intros Hname (Hall & Halnum & Hlower). unfold register.
  rewrite Hname.
  destruct (String.eqb_spec (PyStr.lower (unicode R) name) "all");
    [contradiction|].
  rewrite Halnum, Hlower. reflexivity.
Qed.

Lemma discover_from_passes (items : list T) (found : dict T) :
  Forall (fun i => exists name,
            name_of i = Some name /\ name_checked (R:=R) name) items ->
  exists registry,
    discover_from (R:=R) new_error kind class_of name_of items found
    = Ok registry.
Proof.
  intros H. revert found. induction H as [|item rest (name & Hn & Hc) _ IH];
    intros found; simpl.
  - eauto.
  - rewrite (register_of_checked item name found Hn Hc). apply IH.
Qed.

Lemma discover_from_fails (before after : list T) (item : T)
    (found : dict T) (e : exn) :
  Forall (fun i => exists name,
            name_of i = Some name /\ name_checked (R:=R) name) before ->
  register (R:=R) new_error kind class_of name_of item [] = Raise e ->
  discover_from (R:=R) new_error kind class_of name_of
    (before ++ item :: after) found = Raise e.
Proof.
  intros H He. revert found.
  induction H as [|b rest (name & Hn & Hc) _ IH]; intros found; simpl.
  - pose proof (register_any_found (R:=R) new_error kind class_of name_of
                  item [] found) as Hany.
    rewrite He in Hany. rewrite Hany. reflexivity.
  - rewrite (register_of_checked b name found Hn Hc). apply IH.
Qed.

Lemma discover_from_passed (items : list T) (found registry : dict T) :
  discover_from (R:=R) new_error kind class_of name_of items found
    = Ok registry ->
  Forall (fun i => exists name,
            name_of i = Some name /\ name_checked (R:=R) name) items.
Proof.
  revert found. induction items as [|item rest IH]; intros found; simpl.
  - intros _. constructor.
  - destruct (register _ _ _ _ item found) as [found'|e] eqn:Hreg;
      [|discriminate].
    apply register_ok in Hreg as (name & Hname & Hc & ->).
    intros H. constructor; [eauto|exact (IH _ H)].
Qed.

(** The discovery is all or nothing. It returns a registry exactly when
    every class of the package has a name that passes the three checks;
    otherwise it raises the error of the first class that does not, in
    the order of the scan, whatever comes after that class. *)
Theorem discovery_all_or_nothing :
  let passes (i : T) :=
    exists name, name_of i = Some name /\ name_checked (R:=R) name in
  (forall items : list T,
     (exists registry,
        discover (R:=R) new_error kind class_of name_of items = Ok registry)
     <-> Forall passes items)
  /\ (forall (before after : list T) (item : T) (e : exn),
        Forall passes before ->
        register (R:=R) new_error kind class_of name_of item [] = Raise e ->
        discover (R:=R) new_error kind class_of name_of
          (before ++ item :: after) = Raise e).
Proof.
  intros passes. split.
  - intros items. split.
    + intros [registry H]. exact (discover_from_passed _ _ _ H).
    + intros H. exact (discover_from_passes _ _ H).
  - intros before after item e Hb He.
    exact (discover_from_fails before after item [] e Hb He).
Qed.

Lemma names_of_values (registry : dict T) :
  (forall k v, In (k, v) registry -> name_of v = Some k) ->
  map name_of (dict_values registry) = map Some (dict_keys registry).
Proof.
  induction registry as [|[k v] d IH]; simpl; [reflexivity|].
  intros H. rewrite (H k v) by now left. f_equal.
  apply IH. intros k' v' Hin. apply H. now right.
Qed.

(** The choice of the plugins in [main], on a registry of the discovery.
    Each of the choices click offers, the names of the registry and [all],
    gives plugins that all have a name, so that the loop over them never
    fails on [name]: a name gives the one class of that name, [all] gives
    the classes of the registry in its order. Any other word raises
    [KeyError]. *)
Theorem select_tools_choice :
  forall (items : list T) (registry : dict T) (selected : string),
    discover (R:=R) new_error kind class_of name_of items = Ok registry ->
    (In selected (dict_keys registry ++ ["all"]) ->
     exists tools,
       select_tools registry selected = Ok tools
       /\ Forall (fun t => is_Some (name_of t)) tools
       /\ (selected <> "all" ->
           exists t, tools = [t] /\ name_of t = Some selected /\ In t items)
       /\ (selected = "all" ->
           map name_of tools = map Some (dict_keys registry)))
    /\ (~ In selected (dict_keys registry ++ ["all"]) ->
        select_tools registry selected = Raise (KeyError selected)).
Proof.
  intros items registry selected H.
  assert (Hentries : forall k v, In (k, v) registry ->
                                 name_of v = Some k /\ In v items).
  { intros k v Hin.
    destruct (discover_from_entries _ _ _ _ _ _ _ H k v Hin) as [[]|Hkv].
    exact Hkv. }
  assert (Hnames : map name_of (dict_values registry)
                   = map Some (dict_keys registry)).
  { apply names_of_values. intros k v Hin. apply (Hentries k v Hin). }
  unfold select_tools. split.
  - intros Hin. destruct (String.eqb_spec selected "all") as [->|Hne]; simpl.
    + exists (dict_values registry). split; [reflexivity|]. split.
      * apply Forall_forall. intros t Ht.
        apply list_elem_of_In in Ht.
        apply (in_map name_of) in Ht. rewrite Hnames in Ht.
        apply in_map_iff in Ht as (k & <- & _). eauto.
      * split; [congruence|]. intros _. exact Hnames.
    + apply in_app_iff in Hin as [Hin|[Heq|[]]]; [|congruence].
      destruct (dict_get_keys _ _ Hin) as [t Ht]. rewrite Ht.
      apply dict_get_entry in Ht. destruct (Hentries _ _ Ht) as [Hn Hi].
      exists [t]. split; [reflexivity|]. split.
      * constructor; [eauto|constructor].
      * split; [|congruence]. intros _. exists t. repeat split; assumption.
  - intros Hnot. destruct (String.eqb_spec selected "all") as [->|Hne]; simpl.
    + exfalso. apply Hnot. apply in_or_app. right. now left.
    + rewrite dict_get_not_key; [reflexivity|].
      intros Hin. apply Hnot. apply in_or_app. now left.
Qed.

End Selection.

Section MoreNames.
Context {R : Runtime} {T : Type}
        (new_error : string -> option Z -> exn) (kind : string)
        (class_of : T -> string) (name_of : T -> option string).

Lemma of_bytes_bytes_of (s : string) : PyStr.of_bytes (PyStr.bytes_of s) = s.
Proof.
  unfold PyStr.of_bytes, PyStr.bytes_of. rewrite map_map.
  rewrite (map_ext _ id), map_id by (intros a; apply ascii_N_embedding).
  apply string_of_list_ascii_of_string.
Qed.

Lemma utf8_encode_ascii (bs : list N) :
  forallb (fun b => b <? 128)%N bs = true -> PyStr.utf8_encode bs = bs.
Proof.
  induction bs as [|b bs IH]; simpl; [reflexivity|].
  intros H. apply andb_true_iff in H as [Hb Hbs].
  unfold PyStr.utf8_encode1. rewrite Hb. simpl.
  f_equal. exact (IH Hbs).
Qed.

Lemma cp_lower_ascii (bs : list N) :
  forallb (fun b => b <? 128)%N bs = true ->
  existsb PyStr.ascii_upper bs = false ->
  flat_map (PyStr.cp_lower (unicode R)) bs = bs.
Proof.
  induction bs as [|b bs IH]; simpl; [reflexivity|].
  intros H Hu. apply andb_true_iff in H as [Hb Hbs].
  apply orb_false_iff in Hu as [Hub Hubs].
  unfold PyStr.cp_lower at 1. rewrite Hb, Hub. simpl.
  f_equal. exact (IH Hbs Hubs).
Qed.

(** [lower] leaves a name written in ASCII without capitals as it is. *)
Lemma lower_ascii (s : string) :
  ascii_only s = true ->
  existsb PyStr.ascii_upper (PyStr.bytes_of s) = false ->
  PyStr.lower (unicode R) s = s.
Proof.
  intros Ha Hu. unfold PyStr.lower, PyStr.codepoints, PyStr.of_codepoints.
  rewrite (utf8_decode_ascii _ Ha). simpl.
  rewrite (cp_lower_ascii _ Ha Hu), (utf8_encode_ascii _ Ha).
  apply of_bytes_bytes_of.
Qed.

Lemma lower_or_digit (c : N) :
  PyStr.ascii_lower c || PyStr.ascii_digit c = true ->
  (c <? 128)%N = true /\ PyStr.ascii_upper c = false.
Proof.
  unfold PyStr.ascii_lower, PyStr.ascii_digit, PyStr.ascii_upper.
  intros H. split.
  - apply N.ltb_lt. apply orb_true_iff in H as [H|H];
      apply andb_true_iff in H as [_ H]; apply N.leb_le in H; lia.
  - apply andb_false_iff.
    destruct (N.leb_spec 65 c) as [Hlo|Hlo]; [|now left].
    destruct (N.leb_spec c 90) as [Hhi|Hhi]; [|now right].
    apply orb_true_iff in H as [H|H];
      apply andb_true_iff in H as [H1 H2];
      apply N.leb_le in H1, H2; lia.
Qed.

Lemma lower_or_digit_list (bs : list N) :
  forallb (fun c => PyStr.ascii_lower c || PyStr.ascii_digit c) bs = true ->
  forallb (fun b => b <? 128)%N bs = true
  /\ existsb PyStr.ascii_upper bs = false.
Proof.
  induction bs as [|b bs IH]; simpl; [split; reflexivity|].
  intros H. apply andb_true_iff in H as [Hb Hbs].
  destruct (lower_or_digit b Hb) as [-> ->]. exact (IH Hbs).
Qed.

Lemma ascii_islower_list (bs : list N) :
  forallb (fun b => b <? 128)%N bs = true ->
  existsb (PyStr.cp_islower (unicode R)) bs = existsb PyStr.ascii_lower bs.
Proof.
  induction bs as [|b bs IH]; simpl; [reflexivity|].
  intros H. apply andb_true_iff in H as [Hb Hbs].
  unfold PyStr.cp_islower at 1. rewrite Hb, (IH Hbs). reflexivity.
Qed.

Lemma ascii_alnum_list (bs : list N) :
  forallb (fun c => PyStr.ascii_lower c || PyStr.ascii_digit c) bs = true ->
  forallb (PyStr.cp_isalnum (unicode R)) bs = true
  /\ existsb (fun c => PyStr.cp_isupper (unicode R) c
                       || PyStr.cp_istitle (unicode R) c) bs = false.
Proof.
  induction bs as [|b bs IH]; simpl; [split; reflexivity|].
  intros H. apply andb_true_iff in H as [Hb Hbs].
  destruct (IH Hbs) as [-> ->].
  destruct (lower_or_digit b Hb) as [Hlt Hup].
  unfold PyStr.cp_isalnum, PyStr.cp_isalpha, PyStr.cp_isdecimal,
    PyStr.cp_isdigit, PyStr.cp_isnumeric, PyStr.cp_isupper, PyStr.cp_istitle.
  rewrite Hlt, Hup.
  destruct (PyStr.ascii_lower b), (PyStr.ascii_digit b);
    simpl in *; try discriminate; split; reflexivity.
Qed.

Lemma ascii_accepted (name : string) :
  PyStr.lower_ascii_alnum name = true ->
  has_ascii_lower name = true ->
  name <> "all" ->
  name_checked (R:=R) name.
Proof.
  unfold PyStr.lower_ascii_alnum, has_ascii_lower.
  intros Hrule Hlower Hall.
  assert (Hbs : forallb (fun c => PyStr.ascii_lower c || PyStr.ascii_digit c)
                  (PyStr.bytes_of name) = true).
  { destruct (PyStr.bytes_of name); [discriminate|exact Hrule]. }
  destruct (lower_or_digit_list _ Hbs) as [Ha Hu].
  destruct (ascii_alnum_list _ Hbs) as [Halnum Hnoupper].
  split; [|split].
  - rewrite (lower_ascii name Ha Hu). exact Hall.
  - unfold PyStr.isalnum, PyStr.codepoints.
    rewrite (utf8_decode_ascii _ Ha). simpl.
    destruct (PyStr.bytes_of name); [discriminate|exact Halnum].
  - unfold PyStr.islower, PyStr.codepoints.
    rewrite (utf8_decode_ascii _ Ha). simpl.
    rewrite Hnoupper, (ascii_islower_list _ Ha), Hlower. reflexivity.
Qed.

Lemma digits_not_lower (bs : list N) :
  forallb PyStr.ascii_digit bs = true ->
  forallb (fun b => b <? 128)%N bs = true
  /\ existsb PyStr.ascii_upper bs = false
  /\ existsb PyStr.ascii_lower bs = false.
Proof.
  induction bs as [|b bs IH]; simpl; [repeat split|].
  intros H. apply andb_true_iff in H as [Hb Hbs].
  destruct (IH Hbs) as (-> & -> & ->).
  unfold PyStr.ascii_digit, PyStr.ascii_upper, PyStr.ascii_lower in *.
  apply andb_true_iff in Hb as [H1 H2]. apply N.leb_le in H1, H2.
  repeat split.
  - rewrite andb_true_r. apply N.ltb_lt. lia.
  - rewrite orb_false_r. apply andb_false_iff. left. apply N.leb_gt. lia.
  - rewrite orb_false_r. apply andb_false_iff. left. apply N.leb_gt. lia.
Qed.

(** The names the discovery takes, among those written in ASCII: one or
    more characters of [a-z] and [0-9], at least one of them a letter, and
    not the word [all]. A name made of digits only is refused, with the
    message that allows the numbers (0-9). *)
Theorem ascii_name_rule :
  forall (item : T) (name : string) (found : dict T),
    name_of item = Some name ->
    ascii_only name = true ->
    (register (R:=R) new_error kind class_of name_of item found
     = Ok (dict_set name item found)
     <-> PyStr.lower_ascii_alnum name = true
         /\ has_ascii_lower name = true
         /\ name <> "all")
    /\ (forallb PyStr.ascii_digit (PyStr.bytes_of name) = true ->
        register (R:=R) new_error kind class_of name_of item found
        = Raise (new_error
                   (kind +:+ " class " +:+ class_of item
                    +:+ " must have a name that contains only "
                    +:+ "lowercase letters (a-z) and numbers (0-9)") None)).
Proof.
  intros item name found Hname Hascii. split; [split|].
  - intros Hreg. apply register_ok in Hreg as (name' & Hname' & Hchecked & _).
    rewrite Hname in Hname'. injection Hname' as <-.
    destruct (ascii_name_checked name Hascii Hchecked) as [Hrule Hall].
    split; [exact Hrule|]. split; [|exact Hall].
    destruct Hchecked as (_ & _ & Hlower).
    unfold PyStr.islower, PyStr.codepoints in Hlower.
    rewrite (utf8_decode_ascii _ Hascii) in Hlower. simpl in Hlower.
    apply andb_true_iff in Hlower as [_ Hlower].
    rewrite (ascii_islower_list _ Hascii) in Hlower. exact Hlower.
  - intros (Hrule & Hlower & Hall).
    apply register_of_checked; [exact Hname|].
    apply ascii_accepted; assumption.
  - intros Hdigits.
    destruct (digits_not_lower _ Hdigits) as (Ha & Hu & Hl).
    unfold register. rewrite Hname, (lower_ascii name Ha Hu).
    destruct (String.eqb_spec name "all") as [->|_]; [discriminate|].
    assert (Hnot : PyStr.islower (unicode R) name = false).
    { unfold PyStr.islower, PyStr.codepoints.
      rewrite (utf8_decode_ascii _ Ha). simpl.
      rewrite (ascii_islower_list _ Ha), Hl. apply andb_false_r. }
    rewrite Hnot, orb_true_r. reflexivity.
Qed.

End MoreNames.

(* ================================================================== *)
(** * Further properties: the report and the end of the tasks *)
(* ================================================================== *)

Section MoreReport.
Context {R : Runtime}.

Lemma record_result_entry name serialize (acc : Report * bool)
    (r : FileResult) (k n : string) :
  report_entry (fst (record_result (R:=R) name serialize acc r)) k n
  = if at_path (R:=R) k r && String.eqb n name then Some (serialize r)
    else report_entry (fst acc) k n.
Proof.
  destruct acc as [results ok].
  unfold record_result, report_entry, at_path. simpl.
  destruct (String.eqb_spec (path_absolute R (path r)) k) as [<-|Hk]; simpl.
  - rewrite lookup_insert_eq. simpl.
    destruct (String.eqb_spec n name) as [->|Hn].
    + rewrite lookup_insert_eq. reflexivity.
    + rewrite lookup_insert_ne by congruence.
      destruct (results !! path_absolute R (path r)) as [m|] eqn:Hm.
      * rewrite Hm. reflexivity.
      * rewrite lookup_insert_eq. simpl. rewrite lookup_empty. reflexivity.
  - rewrite lookup_insert_ne by exact Hk.
    destruct (results !! path_absolute R (path r)) as [m|] eqn:Hm;
      [reflexivity|].
    rewrite lookup_insert_ne by exact Hk. reflexivity.
Qed.

Lemma consume_entry name serialize (yielded : list FileResult)
    (acc : Report * bool) (k : string) :
  report_entry (fst (consume (R:=R) name serialize yielded acc)) k name
  = match last (List.filter (at_path (R:=R) k) yielded) with
    | Some r => Some (serialize r)
    | None => report_entry (fst acc) k name
    end.
Proof.
  unfold consume. revert acc.
  induction yielded as [|r ys IH]; intros acc; simpl; [reflexivity|].
  rewrite IH, record_result_entry, String.eqb_refl, andb_true_r.
  destruct (at_path k r); [|reflexivity].
  rewrite last_cons.
  destruct (last (List.filter (at_path (R:=R) k) ys)); reflexivity.
Qed.

Lemma consume_entry_other name serialize (yielded : list FileResult)
    (acc : Report * bool) (k other : string) :
  other <> name ->
  report_entry (fst (consume (R:=R) name serialize yielded acc)) k other
  = report_entry (fst acc) k other.
Proof.
  intros Hother. unfold consume. revert acc.
  induction yielded as [|r ys IH]; intros acc; simpl; [reflexivity|].
  rewrite IH, record_result_entry.
  destruct (String.eqb_spec other name); [contradiction|].
  rewrite andb_false_r. reflexivity.
Qed.

(** What the report holds for one file and one plugin after the results of
    that plugin are recorded: the serialized form of the last of these
    results whose target has that absolute path, or what it held before
    when there is none. A target named twice, or under two spellings of one
    absolute path, leaves one entry. What the report holds for the other
    plugins is not touched. *)
Theorem report_keeps_last_result :
  forall name serialize (yielded : list FileResult)
         (results : Report) (was_successful : bool) (abs_path : string),
    let results' :=
      fst (consume (R:=R) name serialize yielded (results, was_successful)) in
    report_entry results' abs_path name
    = match last (List.filter (at_path (R:=R) abs_path) yielded) with
      | Some r => Some (serialize r)
      | None => report_entry results abs_path name
      end
    /\ (forall other, other <> name ->
          report_entry results' abs_path other
          = report_entry results abs_path other).
Proof.
  intros name serialize yielded results ok k. simpl. split.
  - apply consume_entry.
  - intros other Hother. apply consume_entry_other. exact Hother.
Qed.

End MoreReport.

Section MoreMain.
Context {R : Runtime}.

Lemma main_of_status {T : Type} (name_of : T -> option string) keyword
    serialize (registry : dict T) selected file_paths perform_on
    (failure output : string) st :
  let loops :=
    loops_of name_of keyword serialize registry selected file_paths
      perform_on in
  let results :=
    results_of name_of keyword registry selected file_paths perform_on st in
  let opened := fst (open_w R output (world (snd (loops st)))) in
  let out := fst (main_of loops failure output st) in
  (exit_status (status out) = 0
   <-> (exists acc, fst (loops st) = Ok acc)
       /\ forallb valid results = true
       /\ opened = None)
  /\ (forall acc,
        fst (loops st) = Ok acc ->
        forallb valid results = false ->
        opened = None ->
        status out = Raise (ClickException (failure +:+ ", see " +:+ output))
        /\ report_file out = Some (output, fst acc))
  /\ (forall acc e,
        fst (loops st) = Ok acc ->
        opened = Some e ->
        status out = Raise e /\ report_file out = None).
Proof.
  intros loops results opened out. subst out opened. unfold main_of.
  destruct (loops st) as [[acc|e] st1] eqn:Hrun; simpl.
  - pose proof (loops_of_results _ _ _ _ _ _ _ _ _ _ Hrun) as Hflag.
    fold results in Hflag. unfold finish.
    destruct (open_w R output (world st1)) as [[e|] w]; simpl.
    + split; [|split].
      * split; [discriminate|]. intros (_ & _ & H). discriminate.
      * intros acc' _ _ H. discriminate.
      * intros acc' e' _ [= <-]. split; reflexivity.
    + rewrite Hflag. split; [|split].
      * destruct (forallb valid results); simpl.
        -- split; [eauto|reflexivity].
        -- split; [discriminate|]. intros (_ & H & _). discriminate.
      * intros acc' [= <-] -> _. split; reflexivity.
      * intros acc' e' _ H. discriminate.
  - split; [|split].
    + split; [discriminate|]. intros ((acc & H) & _). discriminate.
    + intros acc H. discriminate.
    + intros acc e' H. discriminate.
Qed.

(** How the two tasks end. The exit status is 0 exactly when the loops ran
    to their end, every result is valid and the report could be opened for
    writing. When the loops ran to their end with an invalid result, the
    report is written all the same, with every result in it, and the task
    ends in the [ClickException] that names the report. When the report
    cannot be opened, the task ends in the error of [open] and there is no
    report, whatever the results were. *)
Theorem task_exit_status :
  (forall (registry : dict (Auditor R)) (auditor output : string)
          (file_paths : list string) (do_not_use_mise_exec : bool) st,
     let run :=
       audit_loops registry auditor file_paths do_not_use_mise_exec st in
     let results :=
       audit_results registry auditor file_paths do_not_use_mise_exec st in
     let opened := fst (open_w R output (world (snd run))) in
     let out :=
       fst (audit_main registry auditor output file_paths
              do_not_use_mise_exec st) in
     (exit_status (status out) = 0
      <-> (exists acc, fst run = Ok acc)
          /\ forallb valid results = true
          /\ opened = None)
     /\ (forall acc,
           fst run = Ok acc ->
           forallb valid results = false ->
           opened = None ->
           status out
           = Raise (ClickException ("Audit check failed, see " +:+ output))
           /\ report_file out = Some (output, fst acc))
     /\ (forall acc e,
           fst run = Ok acc ->
           opened = Some e ->
           status out = Raise e /\ report_file out = None))
  /\
  (forall (registry : dict (Formatter R)) (formatter output : string)
          (file_paths : list string) (do_not_use_mise_exec : bool) st,
     let run :=
       format_loops registry formatter file_paths do_not_use_mise_exec st in
     let results :=
       format_results registry formatter file_paths do_not_use_mise_exec st in
     let opened := fst (open_w R output (world (snd run))) in
     let out :=
       fst (format_main registry formatter output file_paths
              do_not_use_mise_exec st) in
     (exit_status (status out) = 0
      <-> (exists acc, fst run = Ok acc)
          /\ forallb valid results = true
          /\ opened = None)
     /\ (forall acc,
           fst run = Ok acc ->
           forallb valid results = false ->
           opened = None ->
           status out
           = Raise (ClickException
                      ("Formatting check failed, see " +:+ output))
           /\ report_file out = Some (output, fst acc))
     /\ (forall acc e,
           fst run = Ok acc ->
           opened = Some e ->
           status out = Raise e /\ report_file out = None)).
Proof.
  split; intros registry selected output file_paths flag st.
  - exact (main_of_status auditor_name "auditor" FileAuditResult_serialize
             registry selected file_paths _ "Audit check failed" output st).
  - exact (main_of_status formatter_name "formatter"
             FileFormatResult_serialize registry selected file_paths _
             "Formatting check failed" output st).
Qed.

End MoreMain.

Section DefaultRun.
Context {R : Runtime}.

Lemma FlakeEightAuditor_audit_result file_path pre suf st r st' :
  FlakeEightAuditor_audit (R:=R) file_path pre suf st = (Ok r, st') ->
  path r = file_path
  /\ path_type r = (if path_is_file R file_path then FILE else DIRECTORY)
  /\ tool r = "FlakeEightAuditor".
Proof.
  unfold FlakeEightAuditor_audit, bind.
  destruct (Command_run _ _ _ _ _ _ st) as [[r0|e] s1]; [|discriminate].
  destruct (returncode r0) as [[|[q|q|]|q]|]; simpl;
    try discriminate; intros [= <- _]; repeat split.
Qed.

(** The loops of the audit task without a file path, once the root has
    been looked for. *)
Lemma audit_loops_default (flag : bool) (st : State R) :
  let searched :=
    {| world := world st; spawned := spawned st;
       warnings := warnings st ++ warning_records (snd (project_root R)) |} in
  audit_loops (R:=R) flake8_registry "all" [] flag st =
  match fst (project_root R) with
  | Raise e => (Raise e, searched)
  | Ok root =>
    run_tools auditor_name "auditor" [PyPathArg root]
      (fun auditor_type =>
         perform_auditor_operation auditor_type AUDIT
           (Several [PyPathArg root]) (mise_prefix flag) None)
      FileAuditResult_serialize [FlakeEightAuditor] (∅, true) searched
  end.
Proof.
  unfold audit_loops, loops_of, paths_to_check, bind, get_project_root, ret.
  cbn [select_tools String.eqb negb flake8_registry dict_values map snd].
  destruct (fst (project_root R)); reflexivity.
Qed.

(** One directory, handed to [flake8] alone. *)
Lemma audit_one_directory (root : Path) (pre : option (list string))
    (st0 : State R) acc st' :
  path_is_dir R root = true ->
  run_tools auditor_name "auditor" [PyPathArg root]
    (fun auditor_type =>
       perform_auditor_operation auditor_type AUDIT
         (Several [PyPathArg root]) pre None)
    FileAuditResult_serialize [FlakeEightAuditor (R:=R)] (∅, true) st0
  = (Ok acc, st') ->
  spawned st'
  = spawned st0
    ++ [["/bin/sh"; "-c"; PyStr.join " " (or_empty pre ++ ["flake8"; root])]]
  /\ warnings st' = warnings st0
  /\ exists s,
       fst acc = {[ path_absolute R root := {[ "flake8" := s ]} ]}
       /\ s_path s = root
       /\ s_path_type s
          = (if path_is_file R root then "file" else "directory")
       /\ s_valid s = snd acc.
Proof.
  intros Hdir. cbn [run_tools FlakeEightAuditor auditor_name].
  rewrite log_checking_spec.
  destruct (checking_error R "auditor" [PyPathArg root] "flake8");
    [discriminate|].
  unfold perform_auditor_operation, perform_operation.
  cbn [resolve_file_paths resolve_list perform_loop FlakeEightAuditor
       auditor_is_supported_filetype auditor_method auditor_audit].
  destruct (path_exists R root); cbn [negb]; [|discriminate].
  unfold py_is_supported_filetype at 1. rewrite Hdir. cbn [negb].
  destruct (FlakeEightAuditor_audit root pre None st0)
    as [[r|e] st1] eqn:Hm; [|discriminate].
  pose proof (FlakeEightAuditor_audit_state _ _ _ _ _ _ Hm) as [Hs Hw].
  simpl in Hs. unfold yield_first. cbn [fst snd]. unfold ret.
  intros [= <- <-].
  destruct (FlakeEightAuditor_audit_result _ _ _ _ _ _ Hm)
    as (Hp & Ht & _).
  split; [exact Hs|]. split; [exact Hw|].
  exists (FileAuditResult_serialize r). simpl. rewrite Hp.
  split; [|split; [|split]].
  + rewrite lookup_empty, lookup_insert_eq. simpl.
    rewrite insert_insert_eq, insert_empty, insert_empty. reflexivity.
  + reflexivity.
  + rewrite Ht. destruct (path_is_file R root); reflexivity.
  + destruct (valid r); reflexivity.
Qed.

(** The audit task without a file path. The one target is the project
    root, and the warnings of the search for it are those of the task.
    When the root cannot be found, the task ends in that error before any
    process is started. When the root is a directory and the loops run to
    their end, [flake8] was started once, on the directory as a whole, no
    other warning was logged, and the report has one entry, under the
    absolute path of the root, whose validity is the flag of the run. *)
Theorem run_without_file_paths :
  forall (do_not_use_mise_exec : bool) st,
    let run :=
      audit_loops (R:=R) flake8_registry "all" [] do_not_use_mise_exec st in
    let searched :=
      {| world := world st; spawned := spawned st;
         warnings := warnings st ++ warning_records (snd (project_root R)) |} in
    (forall e, fst (project_root R) = Raise e -> run = (Raise e, searched))
    /\ (forall root acc st',
          fst (project_root R) = Ok root ->
          path_is_dir R root = true ->
          run = (Ok acc, st') ->
          spawned st'
          = spawned st
            ++ [["/bin/sh"; "-c";
                 PyStr.join " " (or_empty (mise_prefix do_not_use_mise_exec)
                                 ++ ["flake8"; root])]]
          /\ warnings st' = warnings searched
          /\ exists s,
               fst acc = {[ path_absolute R root := {[ "flake8" := s ]} ]}
               /\ s_path s = root
               /\ s_path_type s
                  = (if path_is_file R root then "file" else "directory")
               /\ s_valid s = snd acc).
Proof.
  intros flag st run searched. subst run.
  rewrite audit_loops_default. fold searched. split.
  - intros e ->. reflexivity.
  - intros root acc st' -> Hdir Hrun.
    exact (audit_one_directory root (mise_prefix flag) searched acc st'
             Hdir Hrun).
Qed.

End DefaultRun.

(* ================================================================== *)
(** * Further properties: the project root *)
(* ================================================================== *)



(* ================================================================== *)
(** * Runs on the simulated host *)
(* ================================================================== *)

(** A run that ends in an exception leaves no result: stated of the run
    at hand, which is evaluated. *)
Ltac returns_by_evaluation H :=
  match type of H with
  | ?run = _ =>
    let Hok := fresh "Hok" in
    assert (Hok : match run with
                  | (Ok _, _) => True
                  | (Raise _, _) => False
                  end) by (vm_compute; exact I);
    rewrite H in Hok; destruct Hok
  end.

Ltac raises_by_evaluation H :=
  match type of H with
  | ?run = _ =>
    let Hok := fresh "Hok" in
    assert (Hok : match run with
                  | (Ok _, _) => False
                  | (Raise _, _) => True
                  end) by (vm_compute; exact I);
    rewrite H in Hok; destruct Hok
  end.

Ltac completes_by_evaluation H :=
  match type of H with
  | ?run = _ =>
    let Hok := fresh "Hok" in
    assert (Hok : match run with
                  | ((_, None), _) => True
                  | ((_, Some _), _) => False
                  end) by (vm_compute; exact I);
    rewrite H in Hok; destruct Hok
  end.

(** [flake8] exits with 1 on [a.py] and prints text: the result is
    invalid. *)
Lemma exit_code_classification_witness :
  let st := Sim.start (t := Sim.tree ["a.py"]) (Sim.host [(1, "E501", "")]) in
  exists fr,
    fst (FlakeEightAuditor_audit (R:=one_file) "a.py" None None st) = Ok fr
    /\ valid fr = false /\ path fr = "a.py".
Proof.
  intros st.
  destruct (exit_code_classification (R:=one_file) "a.py" None None st
              1 "E501" "") as [H _].
  assert (Hlog : running_error one_file ["flake8"] false true true None
                   (Some ["a.py"]) = None) by (vm_compute; reflexivity).
  destruct (H Hlog eq_refl) as [Htext _].
  destruct (Htext eq_refl) as (_ & H1 & _). exact (H1 eq_refl).
Defined.

(** C2, as stated, fails: [flake8] exits with 1, the code of a file with
    findings, but what it prints is not UTF-8, and [audit] raises
    [UnicodeDecodeError] instead of returning the invalid result. *)
Lemma undecodable_output_hides_the_exit_code :
  let st := Sim.start (t := Sim.tree ["a.py"])
              (Sim.host [(1, byte_ff, "")]) in
  fst (os_spawn one_file ["/bin/sh"; "-c"; "flake8 a.py"] (world st))
  = Exited 1 byte_ff ""
  /\ fst (FlakeEightAuditor_audit (R:=one_file) "a.py" None None st)
     = Raise UnicodeDecodeError
  /\ fst (BlackFormatter_check (R:=one_file) "a.py" None None st)
     = Raise UnicodeDecodeError.
Proof. intros st. split; [|split]; reflexivity. Qed.

(** [black --check] exits with 1, then [black] exits with 0: two processes,
    and the file comes back valid and formatted. *)
Lemma format_checks_first_witness :
  let st := Sim.start (t := Sim.tree ["a.py"])
              (Sim.host [(1, "", "would reformat a.py");
                         (0, "", "reformatted a.py")]) in
  let out := BlackFormatter_format (R:=one_file) "a.py" None None st in
  spawned (snd out) = [["/bin/sh"; "-c"; "black --check a.py"];
                       ["/bin/sh"; "-c"; "black a.py"]]
  /\ exists fr, fst out = Ok fr /\ valid fr = true /\ formatted fr = Some true.
Proof.
  intros st out.
  destruct (format_checks_first (R:=one_file) "a.py" None None st)
    as (_ & _ & H).
  assert (Hc : exists checked,
             fst (BlackFormatter_check (R:=one_file) "a.py" None None st)
             = Ok checked /\ valid checked = false).
  { eexists. split; [vm_compute; reflexivity|reflexivity]. }
  destruct Hc as (checked & Hc1 & Hc2).
  destruct (H checked Hc1 Hc2) as [_ Hrun].
  assert (Hlog : running_error one_file ["black"] false true true None
                   (Some ["a.py"]) = None) by (vm_compute; reflexivity).
  destruct (Hrun Hlog) as (Hs & _ & Hexit).
  split; [exact Hs|].
  destruct (Hexit 0 "" "reformatted a.py") as [_ Htext].
  { vm_compute. reflexivity. }
  destruct (Htext eq_refl) as [_ Hok].
  destruct (Hok eq_refl) as [output Hout].
  eexists. split; [exact Hout|]. split; reflexivity.
Defined.

(** C3, as stated, fails: [black --check] finds [a.py] invalid, [black]
    rewrites it and exits with 0, but prints what is not UTF-8: [format]
    raises [UnicodeDecodeError] instead of returning the result with
    [valid = True] and [formatted = True]. *)
Lemma undecodable_output_after_formatting :
  let st := Sim.start (t := Sim.tree ["a.py"])
              (Sim.host [(1, "", "would reformat a.py");
                         (0, "", byte_ff)]) in
  let out := BlackFormatter_format (R:=one_file) "a.py" None None st in
  (exists checked,
     fst (BlackFormatter_check (R:=one_file) "a.py" None None st) = Ok checked
     /\ valid checked = false)
  /\ spawned (snd out) = [["/bin/sh"; "-c"; "black --check a.py"];
                          ["/bin/sh"; "-c"; "black a.py"]]
  /\ fst (os_spawn one_file ["/bin/sh"; "-c"; "black a.py"]
            (world (snd (BlackFormatter_check (R:=one_file) "a.py" None None
                           st))))
     = Exited 0 "" byte_ff
  /\ fst out = Raise UnicodeDecodeError.
Proof.
  intros st out. split.
  - eexists. split; [vm_compute; reflexivity|reflexivity].
  - split; [reflexivity|]. split; reflexivity.
Qed.







(** A command with a pair of braces in it: the record of the command
    cannot be formatted, the run raises [IndexError] and no process is
    started. *)
Example unloggable_command_starts_nothing :
  let st := Sim.start (t := Sim.tree ["a.py"]) (Sim.host [(0, "", "")]) in
  running_error one_file ["echo"; "{}"] false true true None None
  = Some IndexError
  /\ Command_run (R:=one_file) ["echo"; "{}"] false true true None None st
     = (Raise IndexError, st)
  /\ spawned st = [].
Proof. intros st. split; [|split]; reflexivity. Qed.


(** Two files, one of them invalid: the flag is false, and it is the
    conjunction of the two validities. *)
Lemma aggregate_success_flag_witness :
  let st := Sim.start (t := Sim.tree ["a.py"; "b.py"])
              (Sim.host [(0, "", ""); (1, "E501", "")]) in
  flag_of (audit_loops (R:=two_files) flake8_registry "all"
             ["a.py"; "b.py"] true st) = Some false
  /\ map valid (audit_results (R:=two_files) flake8_registry "all"
                  ["a.py"; "b.py"] true st) = [true; false].
Proof.
  intros st. split; [|reflexivity].
  unfold flag_of.
  destruct (audit_loops (R:=two_files) flake8_registry "all"
              ["a.py"; "b.py"] true st) as [[[report ok]|e] st'] eqn:Hrun.
  - destruct (aggregate_success_flag (R:=two_files)) as [H _].
    destruct (H flake8_registry "all" ["a.py"; "b.py"] true st report ok st'
                Hrun) as [Hok _].
    simpl. rewrite Hok. reflexivity.
  - returns_by_evaluation Hrun.
Defined.

(** C1, as stated, fails in its last part. [flake8] finds fault with both
    files, and the flag is false; in the run where it finds fault with
    [b.py] only, the results are the same but for the validity of the first
    one, turned over, and the flag is false all the same. *)
Lemma flipping_one_result_may_keep_the_flag :
  let run xs :=
    audit_loops (R:=two_files) flake8_registry "all" ["a.py"; "b.py"] true
      (Sim.start (t := Sim.tree ["a.py"; "b.py"]) (Sim.host xs)) in
  let results xs :=
    audit_results (R:=two_files) flake8_registry "all" ["a.py"; "b.py"] true
      (Sim.start (t := Sim.tree ["a.py"; "b.py"]) (Sim.host xs)) in
  let both := [(1, "", ""); (1, "", "")] in
  let second := [(0, "", ""); (1, "", "")] in
  map valid (results both) = [false; false]
  /\ match results both with
     | r :: others => results second = flip_valid r :: others
     | [] => False
     end
  /\ flag_of (run both) = Some false
  /\ flag_of (run second) = Some false.
Proof.
  intros run results both second.
  split; [vm_compute; reflexivity|].
  split; [vm_compute; reflexivity|].
  split; vm_compute; reflexivity.
Qed.

(** The scenario of the specification: [flake8] exits with 2 on [a.py];
    [main] ends in the error, the status is not 0, no report is written. *)
Lemma fatal_error_writes_no_report_witness :
  let st := Sim.start (t := Sim.tree ["a.py"]) (Sim.host [(2, "", "")]) in
  let out := fst (audit_main (R:=one_file) flake8_registry "all"
                    "audit-results.json" ["a.py"] false st) in
  status out = Raise (AuditorError "[Exit Code: 2] Unknown error: 2" (Some 2))
  /\ report_file out = None
  /\ exit_status (status out) <> 0.
Proof.
  intros st out.
  destruct (audit_loops (R:=one_file) flake8_registry "all" ["a.py"] false st)
    as [[acc|e] st1] eqn:Hloops.
  - raises_by_evaluation Hloops.
  - destruct (fatal_error_writes_no_report (R:=one_file)) as [H _].
    destruct (H flake8_registry "all" "audit-results.json" ["a.py"] false st)
      as [Habort _].
    destruct (Habort e st1 Hloops) as [Hout Hexit].
    subst out. split; [|split; [|exact Hexit]].
    + rewrite Hout. simpl.
      assert (He : fst (audit_loops (R:=one_file) flake8_registry "all"
                          ["a.py"] false st)
                   = Raise (AuditorError "[Exit Code: 2] Unknown error: 2"
                              (Some 2))) by (vm_compute; reflexivity).
      rewrite Hloops in He. simpl in He. injection He as ->. reflexivity.
    + rewrite Hout. reflexivity.
Defined.

(** The other scenario: the target is missing, and no report is written
    either. *)
Example missing_target_writes_no_report :
  let st := Sim.start (t := Sim.tree ["a.py"]) (Sim.host []) in
  fst (audit_main (R:=one_file) flake8_registry "all" "audit-results.json"
         ["missing.py"] false st)
  = {| status := Raise (AuditorError "File does not exist: missing.py" None);
       report_file := None |}.
Proof. reflexivity. Qed.

(** [black] has to reformat [a.py] and does: the loops end with the flag
    set. *)
Lemma format_never_reports_failure_witness :
  let st := Sim.start (t := Sim.tree ["a.py"])
              (Sim.host [(1, "", "would reformat a.py");
                         (0, "", "reformatted a.py")]) in
  flag_of (format_loops (R:=one_file) black_registry "all" ["a.py"] false st)
  = Some true.
Proof.
  intros st. unfold flag_of.
  destruct (format_loops (R:=one_file) black_registry "all" ["a.py"] false st)
    as [[acc|e] st1] eqn:Hloops.
  - destruct (format_never_reports_failure (R:=one_file)) as [_ H].
    destruct (H black_registry "all" "format-results.json" ["a.py"] false st
                eq_refl) as [Hflag _].
    simpl. rewrite (Hflag acc st1 Hloops). reflexivity.
  - returns_by_evaluation Hloops.
Defined.

(* ================================================================== *)
(** * More runs on the simulated host *)
(* ================================================================== *)

(** The line [mise exec -- flake8] gives back its four tokens. *)
Lemma command_string_round_trip_witness :
  Command (CmdStr "mise exec -- flake8") = ["mise"; "exec"; "--"; "flake8"].
Proof.
  exact (proj2 command_string_round_trip "mise" ["exec"; "--"; "flake8"]
           eq_refl).
Defined.

(** [flake8] writes one line on its standard output and nothing on its
    standard error. *)
Lemma command_result_streams_witness :
  let st := Sim.start (t := Sim.tree ["a.py"]) (Sim.host [(1, "E501", "")]) in
  exists r,
    fst (Command_run (R:=one_file) (Command (CmdList ["flake8"])) false true
           true None (Some ["a.py"]) st) = Ok r
    /\ stdout r = Some "E501" /\ stderr r = None
    /\ captured_output r = true.
Proof.
  intros st.
  destruct (Command_run (R:=one_file) (Command (CmdList ["flake8"])) false true
              true None (Some ["a.py"]) st) as [[r|e] st1] eqn:Hrun.
  - destruct (command_result_streams (R:=one_file) _ _ _ _ _ _ _ r
                (f_equal fst Hrun))
      as (rc & out & err & Hsp & _ & Hout & Herr & Hcap & _).
    assert (Heq : Exited rc out err = Exited 1 "E501" "")
      by (rewrite <- Hsp; reflexivity).
    injection Heq as -> -> ->.
    exists r. split; [reflexivity|]. split; [exact Hout|].
    split; [exact Herr|exact Hcap].
  - returns_by_evaluation Hrun.
Defined.



(** One [str] alone is the list of that [str]. *)
Lemma file_paths_normalisation_witness :
  let st := Sim.start (t := Sim.tree ["a.py"]) (Sim.host [(0, "", "")]) in
  perform_auditor_operation (R:=one_file) FlakeEightAuditor AUDIT
    (Single (PyStrArg "a.py")) None None st
  = perform_auditor_operation (R:=one_file) FlakeEightAuditor AUDIT
      (Several [PyStrArg "a.py"]) None None st.
Proof.
  intros st.
  destruct (file_paths_normalisation (R:=one_file) AuditorError_new
              (py_is_supported_filetype (R:=one_file))
              (FlakeEightAuditor_audit (R:=one_file)) None None st)
    as [H _].
  exact (H (PyStrArg "a.py") eq_refl).
Defined.

(** A [PurePath] alone is audited; in a list it is left out. *)
Example pure_path_alone_and_in_a_list :
  let st := Sim.start (t := Sim.tree ["a.py"]) (Sim.host [(0, "", "")]) in
  let run file_paths :=
    perform_auditor_operation (R:=one_file) FlakeEightAuditor AUDIT
      file_paths None None st in
  map path (fst (fst (run (Single (PyPathLikeArg "a.py"))))) = ["a.py"]
  /\ spawned (snd (run (Single (PyPathLikeArg "a.py"))))
     = [["/bin/sh"; "-c"; "flake8 a.py"]]
  /\ run (Several [PyPathLikeArg "a.py"]) = (([], None), st).
Proof. intros st run. split; [|split]; reflexivity. Qed.

(** [a.py] is audited and [notes.txt] is passed over with a warning. *)
Lemma check_run_trace_witness :
  let st := Sim.start (t := Sim.tree ["a.py"; "notes.txt"])
              (Sim.host [(0, "", "")]) in
  exists yielded st',
    perform_auditor_operation (R:=mixed_files) FlakeEightAuditor AUDIT
      (Several [PyStrArg "a.py"; PyStrArg "notes.txt"]) None None st
    = ((yielded, None), st')
    /\ map path yielded = ["a.py"]
    /\ spawned st' = [["/bin/sh"; "-c"; "flake8 a.py"]]
    /\ warnings st' = ["File is not a supported filetype: notes.txt"].
Proof.
  intros st.
  destruct (perform_auditor_operation (R:=mixed_files) FlakeEightAuditor AUDIT
              (Several [PyStrArg "a.py"; PyStrArg "notes.txt"]) None None st)
    as [[yielded [e|]] st'] eqn:Hrun.
  - completes_by_evaluation Hrun.
  - destruct (check_run_trace (R:=mixed_files)
                [PyStrArg "a.py"; PyStrArg "notes.txt"] None None
                st yielded st') as [H _].
    destruct (H Hrun) as (_ & Hp & Hs & Hw).
    exists yielded, st'. split; [reflexivity|].
    split; [exact Hp|]. split; [exact Hs|exact Hw].
Defined.

(** [a.py] needs formatting and [b.py] does not: three processes for two
    results. *)
Lemma format_run_trace_witness :
  let st := Sim.start (t := Sim.tree ["a.py"; "b.py"])
              (Sim.host [(1, "", "would reformat a.py");
                         (0, "", "reformatted a.py");
                         (0, "", "")]) in
  exists yielded st',
    perform_formatter_operation (R:=two_files) BlackFormatter FORMAT
      (Several [PyStrArg "a.py"; PyStrArg "b.py"]) None None st
    = ((yielded, None), st')
    /\ map path yielded = ["a.py"; "b.py"]
    /\ length (spawned st')
       = (0 + list_sum (map format_cost yielded))%nat
    /\ map formatted yielded = [Some true; Some false].
Proof.
  intros st.
  destruct (perform_formatter_operation (R:=two_files) BlackFormatter FORMAT
              (Several [PyStrArg "a.py"; PyStrArg "b.py"]) None None st)
    as [[yielded [e|]] st'] eqn:Hrun.
  - completes_by_evaluation Hrun.
  - destruct (format_run_trace (R:=two_files)
                [PyStrArg "a.py"; PyStrArg "b.py"] None None
                st yielded st' Hrun) as (Hp & _ & Hn & _).
    exists yielded, st'. split; [reflexivity|].
    split; [exact Hp|]. split; [exact Hn|].
    assert (Hact : map formatted
                     (fst (fst (perform_formatter_operation (R:=two_files)
                                  BlackFormatter FORMAT
                                  (Several [PyStrArg "a.py"; PyStrArg "b.py"])
                                  None None st)))
                   = [Some true; Some false]) by reflexivity.
    rewrite Hrun in Hact. exact Hact.
Defined.

(** The registry of [flake8] and of the class with the accented name. *)
Lemma registry_well_formed_witness :
  let registry := [("flake8", FlakeEightAuditor); (cafe, CafeAuditor)] in
  NoDup (dict_keys registry)
  /\ ~ In "all" (dict_keys registry)
  /\ (forall k v, In (k, v) registry ->
        auditor_name v = Some k /\ In v [FlakeEightAuditor; CafeAuditor])
  /\ (forall item, In item [FlakeEightAuditor; CafeAuditor] ->
        exists k, auditor_name item = Some k /\ In k (dict_keys registry)).
Proof.
  intros registry.
  apply (registry_well_formed (R:=Sim.runtime (Sim.tree [])) AuditorError_new
           "Auditor" auditor_class auditor_name
           [FlakeEightAuditor; CafeAuditor] registry).
  reflexivity.
Defined.

(** Two classes call themselves [flake8]: the name gives the second. *)
Lemma last_class_wins_witness :
  let other := auditor_named "OtherAuditor" (Some "flake8") in
  exists registry,
    _discover_auditors [FlakeEightAuditor; other] = Ok registry
    /\ dict_keys registry = ["flake8"]
    /\ dict_get "flake8" registry = Some other.
Proof.
  intros other. exists [("flake8", other)].
  split; [reflexivity|]. split; [reflexivity|].
  apply (last_class_wins (R:=Sim.runtime (Sim.tree [])) AuditorError_new
           "Auditor" auditor_class auditor_name [FlakeEightAuditor; other]
           [("flake8", other)] "flake8").
  reflexivity.
Defined.

(** A class named [All] after [flake8]: no registry, and the class after
    it is not looked at. *)
Lemma discovery_all_or_nothing_witness :
  _discover_auditors
    [FlakeEightAuditor; auditor_named "AllAuditor" (Some "All");
     auditor_named "Nameless" None]
  = Raise (AuditorError
             ("Auditor class AllAuditor cannot use 'all' as its name - "
              +:+ "this is a reserved keyword") None).
Proof.
  destruct (discovery_all_or_nothing (R:=Sim.runtime (Sim.tree []))
              (T:=Auditor (Sim.runtime (Sim.tree [])))
              AuditorError_new "Auditor" auditor_class auditor_name)
    as [_ H].
  apply (H [FlakeEightAuditor] [auditor_named "Nameless" None]
           (auditor_named "AllAuditor" (Some "All"))).
  - constructor; [|constructor]. exists "flake8". split; [reflexivity|].
    split; [|split]; vm_compute; [discriminate|reflexivity|reflexivity].
  - reflexivity.
Defined.

(** [--auditor flake8] on the registry of the two classes. *)
Lemma select_tools_choice_witness :
  let registry := [("flake8", FlakeEightAuditor); (cafe, CafeAuditor)] in
  exists tools,
    select_tools registry "flake8" = Ok tools
    /\ Forall (fun t => is_Some (auditor_name t)) tools
    /\ ("flake8" <> "all" ->
        exists t, tools = [t] /\ auditor_name t = Some "flake8"
                  /\ In t [FlakeEightAuditor; CafeAuditor])
    /\ ("flake8" = "all" ->
        map auditor_name tools = map Some (dict_keys registry)).
Proof.
  intros registry.
  assert (Hreg : _discover_auditors [FlakeEightAuditor; CafeAuditor]
                 = Ok registry) by reflexivity.
  destruct (select_tools_choice (R:=Sim.runtime (Sim.tree []))
              AuditorError_new "Auditor" auditor_class
              auditor_name [FlakeEightAuditor; CafeAuditor] registry "flake8"
              Hreg) as [H _].
  apply H. simpl. left. reflexivity.
Defined.

(** [flake8] is taken, and a class named [2025] is refused. *)
Lemma ascii_name_rule_witness :
  let R := Sim.runtime (Sim.tree []) in
  register (R:=R) (T:=Auditor R) AuditorError_new "Auditor"
    auditor_class auditor_name FlakeEightAuditor []
  = Ok [("flake8", FlakeEightAuditor)]
  /\ register (R:=R) (T:=Auditor R) AuditorError_new "Auditor"
       auditor_class auditor_name
       (auditor_named "YearAuditor" (Some "2025")) []
     = Raise (AuditorError
                ("Auditor class YearAuditor must have a name that contains "
                 +:+ "only lowercase letters (a-z) and numbers (0-9)") None).
Proof.
  intros R. split.
  - destruct (ascii_name_rule (R:=R) (T:=Auditor R)
                AuditorError_new "Auditor" auditor_class auditor_name
                FlakeEightAuditor "flake8" [] eq_refl eq_refl) as [H _].
    apply H. split; [reflexivity|]. split; [reflexivity|discriminate].
  - destruct (ascii_name_rule (R:=R) (T:=Auditor R)
                AuditorError_new "Auditor" auditor_class auditor_name
                (auditor_named "YearAuditor" (Some "2025")) "2025" []
                eq_refl eq_refl) as [_ H].
    exact (H eq_refl).
Defined.

(** [a.py] is named under two spellings, invalid the first time and valid
    the second: the report keeps the second result, and has nothing for
    [black]. *)
Lemma report_keeps_last_result_witness :
  let first := FileAuditResult (R:=one_file) "a.py" "FlakeEightAuditor"
                 false None in
  let second := FileAuditResult (R:=one_file) "/work/a.py"
                  "FlakeEightAuditor" true None in
  let results :=
    fst (consume (R:=one_file) "flake8" FileAuditResult_serialize
           [first; second] (∅, true)) in
  report_entry results "/work/a.py" "flake8"
  = Some (FileAuditResult_serialize second)
  /\ report_entry results "/work/a.py" "black" = None.
Proof.
  intros first second results.
  destruct (report_keeps_last_result (R:=one_file) "flake8"
              FileAuditResult_serialize [first; second] ∅ true "/work/a.py")
    as [H1 H2].
  split; [exact H1|].
  apply (H2 "black"). discriminate.
Defined.

(** [flake8] finds [a.py] invalid: the report is written and the task
    fails. *)
Lemma task_exit_status_witness :
  let st := Sim.start (t := Sim.tree ["a.py"]) (Sim.host [(1, "E501", "")]) in
  let out := fst (audit_main (R:=one_file) flake8_registry "all"
                    "audit-results.json" ["a.py"] true st) in
  exists acc,
    fst (audit_loops (R:=one_file) flake8_registry "all" ["a.py"] true st)
    = Ok acc
    /\ status out
       = Raise (ClickException "Audit check failed, see audit-results.json")
    /\ report_file out = Some ("audit-results.json", fst acc).
Proof.
  intros st out.
  destruct (task_exit_status (R:=one_file)) as [H _].
  destruct (H flake8_registry "all" "audit-results.json" ["a.py"] true st)
    as (_ & Hfail & _).
  destruct (fst (audit_loops (R:=one_file) flake8_registry "all" ["a.py"]
                   true st)) as [acc|e] eqn:Hrun.
  - exists acc. split; [reflexivity|].
    apply (Hfail acc eq_refl).
    + vm_compute. reflexivity.
    + vm_compute. reflexivity.
  - assert (Hok : match fst (audit_loops (R:=one_file) flake8_registry "all"
                               ["a.py"] true st) with
                  | Ok _ => True
                  | Raise _ => False
                  end) by (vm_compute; exact I).
    rewrite Hrun in Hok. destruct Hok.
Defined.

(** No file path and no git repository, but a [pyproject.toml] in the
    working directory: the search logs its warning, and [flake8] runs
    once, on the working directory. *)
Lemma run_without_file_paths_witness :
  let st := Sim.start (t := no_git_tree) (Sim.host [(0, "", "")]) in
  exists acc st',
    audit_loops (R:=no_git) flake8_registry "all" [] true st = (Ok acc, st')
    /\ spawned st' = [["/bin/sh"; "-c"; "flake8 /work"]]
    /\ warnings st'
       = ["No git repository found, searching for pyproject.toml"]
    /\ dom (fst acc) = {["/work"]}.
Proof.
  intros st.
  destruct (audit_loops (R:=no_git) flake8_registry "all" [] true st)
    as [[acc|e] st'] eqn:Hrun.
  - destruct (run_without_file_paths (R:=no_git) true st) as [_ H].
    destruct (H "/work" acc st' eq_refl eq_refl Hrun)
      as (Hs & Hw & s & Hrep & _).
    exists acc, st'. split; [reflexivity|]. split; [exact Hs|].
    split; [exact Hw|].
    rewrite Hrep. apply dom_singleton_L.
  - returns_by_evaluation Hrun.
Defined.

